(** * forest-express-sequelize: schema builder and resources getter

    A shallow embedding of [src/services/resources-getter.js] (the resources
    getter, followed in the same file by the schema builder) and the
    properties of it that the specification states.

    JavaScript values are embedded as a small untyped value type with the
    runtime's truthiness and property access; objects are association lists
    in the order [_.keys] enumerates them.  Numbers are the integers: no
    property below looks at a fractional or a not-a-number value. *)

From Stdlib Require Import String Ascii List ZArith Bool Lia.
Import ListNotations.
Open Scope string_scope.
Open Scope list_scope.

(** ** The JavaScript runtime *)

Module Js.

(** [s.indexOf(c) !== -1] for a one-character needle. *)
Fixpoint contains (c : ascii) (s : string) : bool :=
  match s with
  | EmptyString => false
  | String a r => if Ascii.eqb a c then true else contains c r
  end.

(** [s.split(c)]: the pieces between the occurrences of [c]; the empty
    string splits into one empty piece. *)
Fixpoint split (c : ascii) (s : string) : list string :=
  match s with
  | EmptyString => [EmptyString]
  | String a r =>
      if Ascii.eqb a c then EmptyString :: split c r
      else match split c r with
           | h :: t => String a h :: t
           | [] => [String a EmptyString]
           end
  end.

(** [s.split(c)[0]]. *)
Definition before (c : ascii) (s : string) : string :=
  hd EmptyString (split c s).

(** [s.replace(c, d)] with a string pattern: only the first occurrence. *)
Fixpoint replace (c d : ascii) (s : string) : string :=
  match s with
  | EmptyString => EmptyString
  | String a r => if Ascii.eqb a c then String d r else String a (replace c d r)
  end.

(** [a.join(',')] on an array of strings (what [+] does to an array). *)
Fixpoint join (l : list string) : string :=
  match l with
  | [] => EmptyString
  | [s] => s
  | s :: r => (s ++ "," ++ join r)%string
  end.

#[warnings="-register-all"]
Inductive value : Type :=
| Undefined
| Null
| Bool (b : bool)
| Num (n : Z)
| Str (s : string)
| RegExp (source : string)
| Arr (items : list value)
| Obj (props : list (string * value))
| Fun (id : nat).

(** Truthiness, as [if (v)], [a && b] and [a || b] test it. *)
Definition truthy (v : value) : bool :=
  match v with
  | Undefined | Null => false
  | Bool b => b
  | Num n => negb (Z.eqb n 0)
  | Str s => negb (String.eqb s EmptyString)
  | RegExp _ | Arr _ | Obj _ | Fun _ => true
  end.

(** [a || b]. *)
Definition or (a b : value) : value := if truthy a then a else b.

Fixpoint assoc {A : Type} (k : string) (l : list (string * A)) : option A :=
  match l with
  | [] => None
  | (k', v) :: r => if String.eqb k k' then Some v else assoc k r
  end.

(** [_.keys(o)] and [_.values(o)]. *)
Definition keys {A : Type} (o : list (string * A)) : list string := map fst o.
Definition values {A : Type} (o : list (string * A)) : list A := map snd o.

(** [v.k] on a value that is neither [undefined] nor [null]; a property
    that is not there reads as [undefined]. *)
Definition get (v : value) (k : string) : value :=
  match v with
  | Obj props => match assoc k props with Some x => x | None => Undefined end
  | _ => Undefined
  end.

Definition digit (i : nat) : string :=
  String (ascii_of_nat (48 + i)) EmptyString.

(** [v[i]] for a small literal index [i] (the source uses 0 and 1). *)
Definition index (v : value) (i : nat) : value :=
  match v with
  | Arr items => nth i items Undefined
  | Str s => match String.get i s with
             | Some a => Str (String a EmptyString)
             | None => Undefined
             end
  | Obj _ => get v (digit i)
  | _ => Undefined
  end.

(** [o.k = x]: an existing property keeps its place, a new one goes last. *)
Fixpoint set_props (k : string) (x : value) (props : list (string * value))
  : list (string * value) :=
  match props with
  | [] => [(k, x)]
  | (k', y) :: r =>
      if String.eqb k k' then (k', x) :: r else (k', y) :: set_props k x r
  end.

Definition isArray (v : value) : bool :=
  match v with Arr _ => true | _ => false end.

Definition isFunction (v : value) : bool :=
  match v with Fun _ => true | _ => false end.

(** [_.includes(l, x)] on strings. *)
Definition includes (l : list string) (x : string) : bool :=
  existsb (String.eqb x) l.

(** The names [k in o] finds on every plain object [o] through its
    prototype and that [r[k] = o[k]] then makes an own key of [r]: the
    properties of [Object.prototype], [__proto__] apart (assigning it sets
    the prototype and adds no key). *)
Definition inherited : list string :=
  ["constructor"; "hasOwnProperty"; "isPrototypeOf"; "propertyIsEnumerable";
   "toLocaleString"; "toString"; "valueOf";
   "__defineGetter__"; "__defineSetter__";
   "__lookupGetter__"; "__lookupSetter__"].

End Js.

(** ** The schema builder *)

(** The ORM's type objects, by the class the builder's [instanceof] chain
    recognises; [CITEXT] is the bare string ['citext'], [ARRAY] any type
    object with a [type] property, [OTHER] every other one. *)
Inductive DataType : Type :=
| STRING | TEXT | UUID | CITEXT | ENUM | BOOLEAN | DATEONLY | DATE
| INTEGER | FLOAT | DOUBLE_PRECISION | BIGINT | DECIMAL
| JSONB | JSON | TIME
| ARRAY (inner : DataType)
| OTHER (name : string).

(** A schema type: a semantic tag, a one-element array of a type, or
    [undefined] for a type object the builder does not recognise. *)
Inductive FieldType : Type :=
| TUndefined
| Tag (tag : string)
| Many (element : FieldType).

(** A column descriptor.  The three flags are [true], [false] or absent. *)
Record Column : Type := {
  c_fieldName : string;
  c_field : string;
  c_type : DataType;
  c_primaryKey : option bool;
  c_allowNull : option bool;
  c_autoGenerated : option bool;
  c_references : Js.value;
  c_defaultValue : Js.value;
  c_validate : Js.value;
  c_values : Js.value
}.

Inductive AssociationType : Type :=
| BelongsTo | HasOne | HasMany | BelongsToMany.

Record Target : Type := {
  t_name : string;
  t_attributes : list (string * Column)
}.

Record Association : Type := {
  a_associationAccessor : string;
  a_associationType : AssociationType;
  a_target : Target;
  a_targetKey : option string;
  a_foreignKey : string;
  a_identifierField : string
}.

Record Model : Type := {
  m_name : string;
  m_attributes : list (string * Column);
  m_associations : list (string * Association);
  m_primaryKeys : list (string * Column)
}.

(** One validation rule; ['is present'] has neither value nor message. *)
Record Validation : Type := {
  v_type : string;
  v_value : option Js.value;
  v_message : option Js.value
}.

(** A field schema; [None] and [false] stand for an absent key. *)
Record FieldSchema : Type := {
  f_field : string;
  f_type : FieldType;
  f_columnName : option string;
  f_primaryKey : bool;
  f_enums : option Js.value;
  f_isRequired : bool;
  f_defaultValue : option Js.value;
  f_validations : option (list Validation);
  f_reference : option string;
  f_inverseOf : option Js.value
}.

Record Schema : Type := {
  s_name : string;
  s_idField : option string;
  s_primaryKeys : list string;
  s_isCompositePrimary : bool;
  s_fields : list FieldSchema
}.

Definition forestCompositePrimary : string := "forestCompositePrimary".

Definition is_true (f : option bool) : bool :=
  match f with Some true => true | _ => false end.

Definition is_false (f : option bool) : bool :=
  match f with Some false => true | _ => false end.

Section SchemaBuilder.

(** [value.toString()] is the runtime's; the builder only stores it. *)
Variable toString : Js.value -> string.

Variable model : Model.

Fixpoint getTypeFor (t : DataType) : FieldType :=
  match t with
  | STRING | TEXT | UUID | CITEXT => Tag "String"
  | ENUM => Tag "Enum"
  | BOOLEAN => Tag "Boolean"
  | DATEONLY => Tag "Dateonly"
  | DATE => Tag "Date"
  | INTEGER | FLOAT | DOUBLE_PRECISION | BIGINT | DECIMAL => Tag "Number"
  | JSONB | JSON => Tag "Json"
  | TIME => Tag "Time"
  | ARRAY inner => Many (getTypeFor inner)
  | OTHER _ => TUndefined
  end.

Definition getTypeForAssociation (association : Association) : FieldType :=
  let attribute :=
    match a_targetKey association with
    | Some k => Js.assoc k (t_attributes (a_target association))
    | None => None
    end in
  let type :=
    match attribute with
    | Some a => getTypeFor (c_type a)
    | None => Tag "Number"
    end in
  match a_associationType association with
  | BelongsTo | HasOne => type
  | HasMany | BelongsToMany => Many type
  end.

(** The entry the builder pushes for a [min], [max], [isBefore], [isAfter]
    or [contains] constraint [c]. *)
Definition rule (type : string) (c : Js.value) : Validation :=
  {| v_type := type;
     v_value := Some (Js.or (Js.get c "args") c);
     v_message := Some (Js.get c "msg") |}.

Definition when (c : Js.value) (rules : list Validation) : list Validation :=
  if Js.truthy c then rules else [].

Definition lenRules (len : Js.value) : list Validation :=
  let length := Js.or (Js.get len "args") len in
  if Js.truthy (Js.index length 0) && Js.truthy (Js.index length 1) then
    [ {| v_type := "is longer than";
         v_value := Some (Js.index length 0);
         v_message := Some (Js.get len "msg") |};
      {| v_type := "is shorter than";
         v_value := Some (Js.index length 1);
         v_message := Some (Js.get len "msg") |} ]
  else
    [ {| v_type := "is longer than";
         v_value := Some length;
         v_message := Some (Js.get len "msg") |} ].

Definition isRules (pattern : Js.value) : list Validation :=
  if Js.truthy pattern && negb (Js.isArray pattern) then
    [ {| v_type := "is like";
         v_value :=
           Some (Js.Str (toString (Js.or (Js.get pattern "args") pattern)));
         v_message := Some (Js.get pattern "msg") |} ]
  else [].

Definition getValidations (column : Column) : list Validation :=
  if is_true (c_autoGenerated column) then []
  else
    let present :=
      if is_false (c_allowNull column)
      then [ {| v_type := "is present"; v_value := None; v_message := None |} ]
      else [] in
    let validate := c_validate column in
    if negb (Js.truthy validate) then present
    else
      present
      ++ when (Js.get validate "min")
              [rule "is greater than" (Js.get validate "min")]
      ++ when (Js.get validate "max")
              [rule "is less than" (Js.get validate "max")]
      ++ when (Js.get validate "isBefore")
              [rule "is before" (Js.get validate "isBefore")]
      ++ when (Js.get validate "isAfter")
              [rule "is after" (Js.get validate "isAfter")]
      ++ when (Js.get validate "len") (lenRules (Js.get validate "len"))
      ++ when (Js.get validate "contains")
              [rule "contains" (Js.get validate "contains")]
      ++ isRules (Js.get validate "is").

Definition getIsRequired (column : Column) : bool :=
  negb (is_true (c_autoGenerated column)) && is_false (c_allowNull column).

Definition isNil (v : Js.value) : bool :=
  match v with Js.Undefined | Js.Null => true | _ => false end.

Definition getSchemaForColumn (column : Column) : FieldSchema :=
  let type := getTypeFor (c_type column) in
  let validations := getValidations column in
  {| f_field := c_fieldName column;
     f_type := type;
     f_columnName := Some (c_field column);
     f_primaryKey := is_true (c_primaryKey column);
     f_enums :=
       match type with
       | Tag "Enum" => Some (c_values column)
       | _ => None
       end;
     f_isRequired := getIsRequired column;
     f_defaultValue :=
       if negb (isNil (c_defaultValue column))
          && negb (Js.includes (Js.keys (m_primaryKeys model))
                               (c_fieldName column))
       then Some (c_defaultValue column) else None;
     f_validations :=
       match validations with [] => None | _ => Some validations end;
     f_reference := None;
     f_inverseOf := None |}.

Definition getSchemaForAssociation (association : Association) : FieldSchema :=
  {| f_field := a_associationAccessor association;
     f_type := getTypeForAssociation association;
     f_columnName := None;
     f_primaryKey := false;
     f_enums := None;
     f_isRequired := false;
     f_defaultValue := None;
     f_validations := None;
     f_reference :=
       Some (t_name (a_target association) ++ "."
             ++ a_foreignKey association)%string;
     f_inverseOf := Some Js.Null |}.

(** What [getSchemaForAssociation] adds to [fieldNamesToExclude]. *)
Definition excluded (association : Association) : list string :=
  match a_associationType association with
  | BelongsTo => [a_identifierField association]
  | _ => []
  end.

(** The column loop: a column that references another table and is not a
    primary key is skipped. *)
Definition columns : list FieldSchema :=
  flat_map
    (fun column =>
       if Js.truthy (c_references column)
          && negb (match c_primaryKey column with
                   | Some b => b | None => false end)
       then []
       else [getSchemaForColumn column])
    (Js.values (m_attributes model)).

Definition associations : list FieldSchema :=
  map getSchemaForAssociation (Js.values (m_associations model)).

Definition fieldNamesToExclude : list string :=
  flat_map excluded (Js.values (m_associations model)).

(** The test of the final [_.remove]; an association schema has no
    [columnName], and [undefined] equals no identifier field. *)
Definition toRemove (field : FieldSchema) : bool :=
  match f_columnName field with
  | Some c => Js.includes fieldNamesToExclude c
  | None => false
  end && negb (f_primaryKey field).

(** [module.exports] of the schema builder.  Both loops have run when the
    final callback does; their pushes are taken columns first. *)
Definition buildSchema : Schema :=
  let primaryKeys := Js.keys (m_primaryKeys model) in
  let composite := Nat.ltb 1 (length (Js.keys (m_primaryKeys model))) in
  {| s_name := m_name model;
     s_idField :=
       if composite then Some forestCompositePrimary
       else nth_error primaryKeys 0;
     s_primaryKeys := primaryKeys;
     s_isCompositePrimary := composite;
     s_fields :=
       filter (fun field => negb (toRemove field)) (columns ++ associations) |}.

End SchemaBuilder.

(** ** The resources getter *)

(** The request parameters the getter reads; the values of a query string
    are strings.  The pagination parameters are read by the query builder
    only. *)
Record Params : Type := {
  p_fields : option (list (string * string));
  p_filter : option (list (string * string));
  p_filterType : option string;
  p_sort : option string;
  p_search : option string;
  p_segment : option string;
  p_timezone : option string
}.

(** [if (s)] on a parameter that is a string or absent. *)
Definition present (s : option string) : bool :=
  match s with
  | Some s => negb (String.eqb s EmptyString)
  | None => false
  end.

Inductive Error : Type :=
| TypeError (message : string)
| Failure (reason : Js.value).

(** A computation that returns or throws. *)
Inductive Result (A : Type) : Type :=
| Ok (a : A)
| Err (e : Error).
Arguments Ok {A} a.
Arguments Err {A} e.

Definition bind {A B : Type} (r : Result A) (k : A -> Result B) : Result B :=
  match r with
  | Ok a => k a
  | Err e => Err e
  end.

Notation "x <- r ;; k" := (bind r (fun x => k))
  (at level 61, r at next level, right associativity).

Fixpoint mapM {A B : Type} (f : A -> Result B) (l : list A)
  : Result (list B) :=
  match l with
  | [] => Ok []
  | a :: r => b <- f a ;; bs <- mapM f r ;; Ok (b :: bs)
  end.

(** A call that throws, or returns a promise that is rejected or
    fulfilled. *)
Inductive Outcome (A : Type) : Type :=
| Threw (e : Error)
| Rejected (e : Error)
| Fulfilled (a : A).
Arguments Threw {A} e.
Arguments Rejected {A} e.
Arguments Fulfilled {A} a.

(** A custom search hook [field.search(options, search)]: the options as it
    leaves them, and the error when it throws. *)
Definition Hook : Type := Js.value -> string -> Js.value * option Error.

Record RegistryField : Type := {
  r_field : string;
  r_search : option Hook
}.

Record Segment : Type := {
  g_name : string;
  g_scope : Js.value;
  g_where : Js.value
}.

(** The registry entry as the getter reads it. *)
Record RegistrySchema : Type := {
  r_fields : list RegistryField;
  r_searchFields : option (list string);
  r_segments : option (list Segment);
  r_isCompositePrimary : bool
}.

(** A record: the properties of the instance. *)
Definition Record_ : Type := list (string * Js.value).

(** What the getter does to the outside, in order. *)
Inductive Event : Type :=
| Warn (message : string)
| LogError (message : string) (error : Error)
| SegmentWhere (f : nat) (params : Params)
| Count (scope : option Js.value) (options : Js.value)
| FindAll (scope : option Js.value) (options : Js.value).

Definition option_eqb (a b : option string) : bool :=
  match a, b with
  | Some x, Some y => String.eqb x y
  | None, None => true
  | _, _ => false
  end.

(** [_.uniq]: the first occurrence of each element stays. *)
Fixpoint uniq {A : Type} (eqb : A -> A -> bool) (l : list A) : list A :=
  match l with
  | [] => []
  | x :: r => x :: filter (fun y => negb (eqb x y)) (uniq eqb r)
  end.

(** [_.xor(a, b)]. *)
Definition xor (a b : list string) : list string :=
  uniq String.eqb
    (filter (fun x => negb (Js.includes b x)) a
     ++ filter (fun x => negb (Js.includes a x)) b).

(** [_.keys(_.pick(o, names))]: [_.pick] copies the names it finds with
    [name in o], own or inherited. *)
Definition picked {A : Type} (o : list (string * A)) (names : list string)
  : list string :=
  uniq String.eqb
    (filter (fun name => Js.includes (Js.keys o) name
                         || Js.includes Js.inherited name)
            names).

(** The collaborators, for one model, its options and one request:
    [new OperatorValueParser().perform(model, key, value, timezone)], which
    may throw; [new SearchBuilder(model, opts, params, names).perform()];
    the query builder's four getters;
    [new CompositeKeysManager(model, schema, record).createCompositePrimary()];
    a segment's [where] function called on the parameters; and the two
    queries, on [model.scope(s)] for [Some s] and on [model.unscoped()] for
    [None]. *)
Record Collaborators : Type := {
  operatorValueParser : string -> string -> option string -> Result Js.value;
  searchBuilder : option (list (option string)) -> Js.value;
  getIncludes : option (list (option string)) -> Js.value;
  getOrder : Js.value;
  getSkip : Js.value;
  getLimit : Js.value;
  createCompositePrimary : Record_ -> Js.value;
  callWhere : nat -> Params -> Outcome Js.value;
  count : option Js.value -> Js.value -> Result Z;
  findAll : option Js.value -> Js.value -> Result (list Record_)
}.

Section ResourcesGetter.

Variable model : Model.
Variable schema : RegistrySchema.
Variable params : Params.
Variable world : Collaborators.

(** The association names the filter keys bring in. *)
Definition filterAssociations : list string :=
  match p_filter params with
  | None => []
  | Some filter =>
      flat_map
        (fun kv => if Js.contains ":" (fst kv)
                   then [Js.before ":" (fst kv)] else [])
        filter
  end.

Definition sortAssociation : list string :=
  match p_sort params with
  | Some sort =>
      if negb (String.eqb sort EmptyString) && Js.contains "." sort
      then [Js.before "." sort] else []
  | None => []
  end.

(** [None] is [null]; an element [None] is the [undefined] that
    [_.keys(model.primaryKeys)[0]] is on a model without a primary key. *)
Definition fieldNamesRequested : option (list (option string)) :=
  match p_fields params with
  | None => None
  | Some fields =>
      match Js.assoc (m_name model) fields with
      | None => None
      | Some requested =>
          if String.eqb requested EmptyString then None
          else
            let associationsForQuery :=
              filterAssociations ++ sortAssociation in
            let primaryKeyArray :=
              [nth_error (Js.keys (m_primaryKeys model)) 0] in
            Some (uniq option_eqb
                    (primaryKeyArray
                     ++ map Some (Js.split "," requested)
                     ++ map Some associationsForQuery))
      end
  end.

(** The warnings of [selectSearchFields]; the narrowed [fields] and
    [associations] are read by nothing else. *)
Definition selectSearchFields (declared : list string) : list Event :=
  let searchAssociationFields := filter (Js.contains ".") declared in
  let searchFields :=
    filter (fun field => negb (Js.contains "." field)) declared in
  let fields :=
    filter (fun field => Js.includes declared (r_field field))
           (r_fields schema) in
  let searchAssociationNames :=
    map (Js.before ".") searchAssociationFields in
  let associations := picked (m_associations model) searchAssociationNames in
  let fieldsSimpleNotFound := xor searchFields (map r_field fields) in
  let fieldsAssociationNotFound := xor searchAssociationNames associations in
  (match fieldsSimpleNotFound with
   | [] => []
   | _ => [Warn ("Cannot find the fields [" ++ Js.join fieldsSimpleNotFound
                 ++ "] while searching records in model "
                 ++ m_name model ++ ".")%string]
   end)
  ++ (match fieldsAssociationNotFound with
      | [] => []
      | _ => [Warn ("Cannot find the associations ["
                    ++ Js.join fieldsAssociationNotFound
                    ++ "] while searching records in model "
                    ++ m_name model ++ ".")%string]
      end).

(** The key of a filter condition. *)
Definition whereKey (key : string) : string :=
  if Js.contains ":" key
  then ("$" ++ Js.replace ":" "." key ++ "$")%string else key.

(** The pairs the two nested loops of [handleFilterParams] visit. *)
Definition filterPairs (filter : list (string * string))
  : list (string * string) :=
  flat_map
    (fun kv => map (pair (whereKey (fst kv))) (Js.split "," (snd kv)))
    filter.

Definition condition (kv : string * string) : Result Js.value :=
  parsed <- operatorValueParser world (fst kv) (snd kv) (p_timezone params) ;;
  Ok (Js.Obj [(fst kv, parsed)]).

Definition filterConditions (filter : list (string * string))
  : Result (list Js.value) :=
  mapM condition (filterPairs filter).

Definition handleFilterParams (filter : list (string * string))
  : Result Js.value :=
  conditions <- filterConditions filter ;;
  Ok (Js.Obj
        match p_filterType params with
        | Some filterType =>
            if negb (String.eqb filterType EmptyString)
            then [(("$" ++ filterType)%string, Js.Arr conditions)] else []
        | None => []
        end).

(** The elements of [where.$and]. *)
Definition whereParts (segmentWhere : Js.value) : Result (list Js.value) :=
  let search :=
    if present (p_search params)
    then [searchBuilder world fieldNamesRequested] else [] in
  filtered <- match p_filter params with
              | Some filter => w <- handleFilterParams filter ;; Ok [w]
              | None => Ok []
              end ;;
  Ok (search ++ filtered
      ++ (if Js.truthy segmentWhere then [segmentWhere] else [])).

Definition getWhere (segmentWhere : Js.value) : Result Js.value :=
  parts <- whereParts segmentWhere ;;
  Ok (Js.Obj [("$and", Js.Arr parts)]).

Definition countOpts (segmentWhere : Js.value) : Result Js.value :=
  let include := getIncludes world fieldNamesRequested in
  where_ <- getWhere segmentWhere ;;
  Ok (Js.Obj [("include", include); ("where", where_)]).

Definition findAllOpts (segmentWhere : Js.value) : Result Js.value :=
  where_ <- getWhere segmentWhere ;;
  Ok (Js.Obj [("where", where_);
              ("include", getIncludes world fieldNamesRequested);
              ("order", getOrder world);
              ("offset", getSkip world);
              ("limit", getLimit world)]).

(** The loop over the custom search hooks: the second call of a hook is
    skipped when its first call throws. *)
Fixpoint searchHooks (fields : list RegistryField) (search : string)
  (countOpts findAllOpts : Js.value) : list Event * (Js.value * Js.value) :=
  match fields with
  | [] => ([], (countOpts, findAllOpts))
  | field :: rest =>
      match r_search field with
      | None => searchHooks rest search countOpts findAllOpts
      | Some hook =>
          let message :=
            ("Cannot search properly on Smart Field " ++ r_field field)%string in
          let (countOpts', thrown) := hook countOpts search in
          match thrown with
          | Some error =>
              let (log, opts) :=
                searchHooks rest search countOpts' findAllOpts in
              (LogError message error :: log, opts)
          | None =>
              let (findAllOpts', thrown') := hook findAllOpts search in
              let (log, opts) :=
                searchHooks rest search countOpts' findAllOpts' in
              match thrown' with
              | Some error => (LogError message error :: log, opts)
              | None => (log, opts)
              end
          end
      end
  end.

(** [P.all] of the two queries; both have been issued.  When both are
    rejected the promises settle in an order the code does not fix; the
    count's rejection is taken, and no statement below depends on it. *)
Definition all {A B : Type} (a : Result A) (b : Result B) : Result (A * B) :=
  match a, b with
  | Ok x, Ok y => Ok (x, y)
  | Err e, _ => Err e
  | _, Err e => Err e
  end.

(** [if (hasSearchFields) { selectSearchFields(); }]. *)
Definition searchWarnings : list Event :=
  match r_searchFields schema with
  | Some declared => selectSearchFields declared
  | None => []
  end.

(** [model.scope(segmentScope)] or [model.unscoped()]. *)
Definition scoped (segmentScope : Js.value) : option Js.value :=
  if Js.truthy segmentScope then Some segmentScope else None.

(** The two option sets as the queries get them, and what the hooks
    logged. *)
Definition searched (countOpts findAllOpts : Js.value)
  : list Event * (Js.value * Js.value) :=
  match p_search params with
  | Some search =>
      if negb (String.eqb search EmptyString)
      then searchHooks (r_fields schema) search countOpts findAllOpts
      else ([], (countOpts, findAllOpts))
  | None => ([], (countOpts, findAllOpts))
  end.

Definition getAndCountRecords (segmentScope segmentWhere : Js.value)
  : list Event * Result (Z * list Record_) :=
  let warnings := searchWarnings in
  match countOpts segmentWhere with
  | Err e => (warnings, Err e)
  | Ok countOpts =>
      match findAllOpts segmentWhere with
      | Err e => (warnings, Err e)
      | Ok findAllOpts =>
          let (log, opts) := searched countOpts findAllOpts in
          let scope := scoped segmentScope in
          (warnings ++ log
           ++ [Count scope (fst opts); FindAll scope (snd opts)],
           all (count world scope (fst opts))
               (findAll world scope (snd opts)))
      end
  end.

(** [getSegment]: the scope and the condition it leaves in [segmentScope]
    and [segmentWhere]; reading [scope] of the [undefined] that [_.find]
    returns throws. *)
Definition getSegment : Result (Js.value * Js.value) :=
  match r_segments schema, p_segment params with
  | Some segments, Some name =>
      if negb (String.eqb name EmptyString) then
        match find (fun segment => String.eqb (g_name segment) name) segments with
        | Some segment => Ok (g_scope segment, g_where segment)
        | None => Err (TypeError "Cannot read property 'scope' of undefined")
        end
      else Ok (Js.Undefined, Js.Undefined)
  | _, _ => Ok (Js.Undefined, Js.Undefined)
  end.

(** [getSegmentCondition]: the value of [segmentWhere] when the promise it
    returns is fulfilled.  The promise of a segment's function is taken to
    be bluebird's, as [callWhere] reads it; [performCalled] below drops
    that assumption. *)
Definition getSegmentCondition (segmentWhere : Js.value)
  : list Event * Outcome Js.value :=
  match segmentWhere with
  | Js.Fun f => ([SegmentWhere f params], callWhere world f params)
  | _ => ([], Fulfilled segmentWhere)
  end.

Definition attach (record : Record_) : Record_ :=
  Js.set_props forestCompositePrimary
               (createCompositePrimary world record) record.

Definition perform : list Event * Outcome (Z * list Record_) :=
  match getSegment with
  | Err e => ([], Threw e)
  | Ok (segmentScope, segmentWhere) =>
      match getSegmentCondition segmentWhere with
      | (log, Threw e) => (log, Threw e)
      | (log, Rejected e) => (log, Rejected e)
      | (log, Fulfilled resolved) =>
          match getAndCountRecords segmentScope resolved with
          | (log', Err e) => (log ++ log', Rejected e)
          | (log', Ok (n, records)) =>
              (log ++ log',
               Fulfilled
                 (n, if r_isCompositePrimary schema
                     then map attach records else records))
          end
      end
  end.

End ResourcesGetter.

(** ** Vocabulary of the statements *)

(** Every name a column of the model goes by: its key in [attributes] and in
    [primaryKeys], its field name and its database column name. *)
Definition columnNames (model : Model) : list string :=
  Js.keys (m_attributes model)
  ++ map c_fieldName (Js.values (m_attributes model))
  ++ map c_field (Js.values (m_attributes model))
  ++ Js.keys (m_primaryKeys model).

(** The two rule types a length constraint produces. *)
Definition isLengthRule (v : Validation) : bool :=
  String.eqb (v_type v) "is longer than"
  || String.eqb (v_type v) "is shorter than".

Definition longerThan (value message : Js.value) : Validation :=
  {| v_type := "is longer than";
     v_value := Some value; v_message := Some message |}.

Definition shorterThan (value message : Js.value) : Validation :=
  {| v_type := "is shorter than";
     v_value := Some value; v_message := Some message |}.

(** One elementary condition: the object with the one key [key], holding
    what the parser makes of [key] and [value]. *)
Definition elementary (params : Params) (world : Collaborators)
  (kv : string * string) (c : Js.value) : Prop :=
  exists parsed,
    operatorValueParser world (fst kv) (snd kv) (p_timezone params)
    = Ok parsed
    /\ c = Js.Obj [(fst kv, parsed)].

(** A query, as opposed to a log line or the call of a segment's
    function. *)
Definition isQuery (e : Event) : bool :=
  match e with
  | Count _ _ | FindAll _ _ => true
  | _ => false
  end.

(** The keys of an option set. *)
Definition properties (v : Js.value) : list string :=
  match v with
  | Js.Obj props => Js.keys props
  | _ => []
  end.

(** A line of the log. *)
Definition isLog (e : Event) : bool :=
  match e with
  | Warn _ | LogError _ _ => true
  | _ => false
  end.

(** ** Sample models and requests *)

Module Sample.

(** Strings and regular expressions print as the runtime prints them; no
    example below prints another value. *)
Definition toString (v : Js.value) : string :=
  match v with
  | Js.Str s => s
  | Js.RegExp source => ("/" ++ source ++ "/")%string
  | _ => EmptyString
  end.

Definition column (name : string) (type : DataType) (primaryKey : option bool)
  (validate : Js.value) : Column :=
  {| c_fieldName := name; c_field := name; c_type := type;
     c_primaryKey := primaryKey; c_allowNull := None;
     c_autoGenerated := None; c_references := Js.Undefined;
     c_defaultValue := Js.Undefined; c_validate := validate;
     c_values := Js.Undefined |}.

Definition key (name : string) : Column :=
  column name INTEGER (Some true) Js.Undefined.

Definition plain (name : string) : Column :=
  column name STRING None Js.Undefined.

Definition table (name : string) (columns : list Column)
  (associations : list (string * Association)) : Model :=
  {| m_name := name;
     m_attributes := map (fun c => (c_fieldName c, c)) columns;
     m_associations := associations;
     m_primaryKeys :=
       map (fun c => (c_fieldName c, c))
           (filter (fun c => is_true (c_primaryKey c)) columns) |}.

(** [Article(id, title)], one primary key. *)
Definition article : Model :=
  table "Article" [key "id"; plain "title"] [].

(** [Membership(userId, groupId, role)], two primary keys. *)
Definition membership : Model :=
  table "Membership" [key "userId"; key "groupId"; plain "role"] [].

(** A two-key model one of whose key columns carries the marker's name. *)
Definition clash : Model :=
  table "Clash" [key "forestCompositePrimary"; key "other"] [].

(** [{ len: [2, 10] }] and a bare [{ len: 5 }]. *)
Definition bounds (lo hi : Z) : Js.value :=
  Js.Obj [("len", Js.Arr [Js.Num lo; Js.Num hi])].

Definition named (validate : Js.value) : Column :=
  column "name" STRING None validate.

(** The same column, generated by the ORM. *)
Definition generated (validate : Js.value) : Column :=
  {| c_fieldName := "name"; c_field := "name"; c_type := STRING;
     c_primaryKey := None; c_allowNull := None;
     c_autoGenerated := Some true; c_references := Js.Undefined;
     c_defaultValue := Js.Undefined; c_validate := validate;
     c_values := Js.Undefined |}.

(** The same column, declared [allowNull: false]. *)
Definition mandatory (validate : Js.value) : Column :=
  {| c_fieldName := "name"; c_field := "name"; c_type := STRING;
     c_primaryKey := None; c_allowNull := Some false;
     c_autoGenerated := None; c_references := Js.Undefined;
     c_defaultValue := Js.Undefined; c_validate := validate;
     c_values := Js.Undefined |}.

(** [Post(id, title, authorId)] belongs to an author through [authorId];
    [Profile(authorId, bio)] does too, and [authorId] is its primary key. *)
Definition author : Target :=
  {| t_name := "Author"; t_attributes := [("id", key "id")] |}.

Definition belongsToAuthor : Association :=
  {| a_associationAccessor := "author"; a_associationType := BelongsTo;
     a_target := author; a_targetKey := Some "id";
     a_foreignKey := "authorId"; a_identifierField := "authorId" |}.

Definition authorId : Column :=
  column "authorId" INTEGER None Js.Undefined.

Definition post : Model :=
  table "Post" [key "id"; plain "title"; authorId]
        [("author", belongsToAuthor)].

Definition profile : Model :=
  table "Profile" [key "authorId"; plain "bio"]
        [("author", belongsToAuthor)].

(** A request: the parameters that are not given are absent. *)
Definition request (fields filter : option (list (string * string)))
  (filterType sort search segment : option string) : Params :=
  {| p_fields := fields; p_filter := filter; p_filterType := filterType;
     p_sort := sort; p_search := search; p_segment := segment;
     p_timezone := None |}.

(** [{ filter: { age: '18,21' }, filterType: 'or' }] and the same without
    [filterType]. *)
Definition ages : list (string * string) := [("age", "18,21")].

Definition anyAge : Params :=
  request None (Some ages) (Some "or") None None None.

Definition someAge : Params :=
  request None (Some ages) None None None None.

(** [{ fields: { Post: 'title' }, filter: { 'author:name': 'Ann' },
       filterType: 'and', sort: 'author.name' }]. *)
Definition byAuthor : Params :=
  request (Some [("Post", "title")]) (Some [("author:name", "Ann")])
          (Some "and") (Some "author.name") None None.

(** [{ fields: { Membership: 'role' } }]. *)
Definition roles : Params :=
  request (Some [("Membership", "role")]) None None None None None.

(** [{ segment: 'published' }] and [{ segment: 'archived' }]. *)
Definition published : Params :=
  request None None None None None (Some "published").

Definition archived : Params :=
  request None None None None None (Some "archived").

Definition everything : Params :=
  request None None None None None None.

(** A parser that keeps the raw value, a search builder and a query builder
    that ask for nothing. *)
Definition parser (key value : string) (timezone : option string)
  : Result Js.value :=
  Ok (Js.Str value).

Definition search (names : option (list (option string))) : Js.value :=
  Js.Obj [("$or", Js.Arr [])].

Definition includes (names : option (list (option string))) : Js.value :=
  Js.Arr [].

(** The registry entry of a model with one segment, [published], whose
    condition is the function [0]; that function resolves to
    [{ published: true }]. *)
Definition isPublished : Js.value := Js.Obj [("published", Js.Bool true)].

Definition segmented (composite : bool) : RegistrySchema :=
  {| r_fields := [];
     r_searchFields := None;
     r_segments :=
       Some [ {| g_name := "published"; g_scope := Js.Undefined;
                 g_where := Js.Fun 0 |} ];
     r_isCompositePrimary := composite |}.

Definition resolve (f : nat) (params : Params) : Outcome Js.value :=
  Fulfilled isPublished.

(** A table of two rows; the second row has a column called
    [forestCompositePrimary]. *)
Definition row1 : Record_ :=
  [("userId", Js.Num 1); ("groupId", Js.Num 2)].

Definition row2 : Record_ :=
  [("userId", Js.Num 3); (forestCompositePrimary, Js.Str "stored");
   ("groupId", Js.Num 4)].

Definition counted (scope : option Js.value) (options : Js.value)
  : Result Z :=
  Ok 2%Z.

Definition found (scope : option Js.value) (options : Js.value)
  : Result (list Record_) :=
  Ok [row1; row2].

Definition compositeKey (record : Record_) : Js.value :=
  Js.Arr [Js.get (Js.Obj record) "userId"; Js.get (Js.Obj record) "groupId"].

Definition world : Collaborators :=
  {| operatorValueParser := parser;
     searchBuilder := search;
     getIncludes := includes;
     getOrder := Js.Undefined;
     getSkip := Js.Num 0;
     getLimit := Js.Num 10;
     createCompositePrimary := compositeKey;
     callWhere := resolve;
     count := counted;
     findAll := found |}.

End Sample.

(** ** Further vocabulary and samples *)

(** The rule of a column declared [allowNull: false]. *)
Definition presentRule : Validation :=
  {| v_type := "is present"; v_value := None; v_message := None |}.

(** The rule types of the constraints under [validate], the pattern apart. *)
Definition constraintTypes : list string :=
  ["is greater than"; "is less than"; "is before"; "is after";
   "is longer than"; "is shorter than"; "contains"].

(** Every rule type the builder knows. *)
Definition validationTypes : list string :=
  "is present" :: constraintTypes ++ ["is like"].

(** The eight semantic tags. *)
Definition typeTags : list string :=
  ["String"; "Enum"; "Boolean"; "Dateonly"; "Date"; "Number"; "Json"; "Time"].

(** The element type of a type object, and the number of array levels
    around it. *)
Fixpoint base (t : DataType) : DataType :=
  match t with
  | ARRAY inner => base inner
  | _ => t
  end.

Fixpoint rank (t : DataType) : nat :=
  match t with
  | ARRAY inner => S (rank inner)
  | _ => 0
  end.

Fixpoint wrap (n : nat) (t : FieldType) : FieldType :=
  match n with
  | 0 => t
  | S m => Many (wrap m t)
  end.

(** The number of occurrences of [c] in [s]. *)
Fixpoint occurrences (c : ascii) (s : string) : nat :=
  match s with
  | EmptyString => 0
  | String a r => (if Ascii.eqb a c then 1 else 0) + occurrences c r
  end.

(** The scope of a query. *)
Definition scopeOf (e : Event) : option (option Js.value) :=
  match e with
  | Count scope _ | FindAll scope _ => Some scope
  | _ => None
  end.

(** A hook that never throws. *)
Definition quiet (hook : Hook) : Prop :=
  forall options search, snd (hook options search) = None.

(** What the hooks of the fields make of one option set when each of them
    is called on it, in the order of the fields. *)
Definition applyHooks (fields : list RegistryField) (search : string)
  (options : Js.value) : Js.value :=
  fold_left
    (fun o field =>
       match r_search field with
       | Some hook => fst (hook o search)
       | None => o
       end)
    fields options.

Definition hasHook (field : RegistryField) : bool :=
  match r_search field with Some _ => true | None => false end.

(** The outcome of [perform] after [getAndCountRecords]. *)
Definition settle (composite : bool) (world : Collaborators)
  (r : Result (Z * list Record_)) : Outcome (Z * list Record_) :=
  match r with
  | Err e => Rejected e
  | Ok (n, records) =>
      Fulfilled (n, if composite then map (attach world) records
                    else records)
  end.

Definition b2n (b : bool) : nat := if b then 1 else 0.

(** What calling a segment's [where] function gives, whatever promise
    library it uses: it throws or returns a promise with [then] and
    [spread], bluebird's, which is rejected or fulfilled; or it returns
    another thenable, a native promise say, whose [then] gives a promise
    without [spread]; or it returns a value without [then]. *)
Inductive Called : Type :=
| Bluebird (outcome : Outcome Js.value)
| Thenable (settled : Result Js.value)
| NotThenable.

(** The type errors of a call of [then] or [spread] that is not there; the
    text is the runtime's. *)
Definition notAFunction (what : string) : Error :=
  TypeError (what ++ " is not a function")%string.

Definition then_ : string := "segmentWhere(...).then".

Definition spread : string := "getSegmentCondition(...).then(...).spread".

Section PerformCalled.

Variable model : Model.
Variable schema : RegistrySchema.
Variable params : Params.
Variable world : Collaborators.
Variable called : nat -> Params -> Called.

(** [perform], for any function of a segment.  [getSegmentCondition] calls
    [then] on what the function returns, and [perform] calls [then] and
    [spread] on that: without [then] the first call throws; with a
    thenable that is not bluebird's, [spread] throws, while the chain built
    so far goes on and runs [getAndCountRecords] if the thenable is
    fulfilled.  The log lists what is done, also after the throw. *)
Definition performCalled : list Event * Outcome (Z * list Record_) :=
  match getSegment schema params with
  | Err e => ([], Threw e)
  | Ok (segmentScope, segmentWhere) =>
      match segmentWhere with
      | Js.Fun f =>
          match called f params with
          | Bluebird (Threw e) => ([SegmentWhere f params], Threw e)
          | Bluebird (Rejected e) => ([SegmentWhere f params], Rejected e)
          | Bluebird (Fulfilled resolved) =>
              let (log, r) :=
                getAndCountRecords model schema params world
                  segmentScope resolved in
              (SegmentWhere f params :: log,
               settle (r_isCompositePrimary schema) world r)
          | Thenable (Err e) =>
              ([SegmentWhere f params], Threw (notAFunction spread))
          | Thenable (Ok resolved) =>
              (SegmentWhere f params
               :: fst (getAndCountRecords model schema params world
                         segmentScope resolved),
               Threw (notAFunction spread))
          | NotThenable =>
              ([SegmentWhere f params], Threw (notAFunction then_))
          end
      | _ =>
          let (log, r) :=
            getAndCountRecords model schema params world
              segmentScope segmentWhere in
          (log, settle (r_isCompositePrimary schema) world r)
      end
  end.

End PerformCalled.

Module Sample2.

(** A UUID key with a default, and a plain column with one. *)
Definition uuid : Column :=
  {| c_fieldName := "id"; c_field := "id"; c_type := UUID;
     c_primaryKey := Some true; c_allowNull := Some false;
     c_autoGenerated := None; c_references := Js.Undefined;
     c_defaultValue := Js.Str "UUIDV4"; c_validate := Js.Undefined;
     c_values := Js.Undefined |}.

Definition status : Column :=
  {| c_fieldName := "status"; c_field := "status"; c_type := ENUM;
     c_primaryKey := None; c_allowNull := Some false;
     c_autoGenerated := None; c_references := Js.Undefined;
     c_defaultValue := Js.Str "draft";
     c_validate := Js.Obj [("is", Js.RegExp "^[a-z]+$")];
     c_values := Js.Arr [Js.Str "draft"; Js.Str "live"] |}.

Definition createdAt : Column :=
  {| c_fieldName := "createdAt"; c_field := "created_at"; c_type := DATE;
     c_primaryKey := None; c_allowNull := Some false;
     c_autoGenerated := Some true; c_references := Js.Undefined;
     c_defaultValue := Js.Undefined;
     c_validate := Js.Obj [("len", Js.Arr [Js.Num 2; Js.Num 10])];
     c_values := Js.Undefined |}.

Definition document : Model :=
  {| m_name := "Document";
     m_attributes :=
       [("id", uuid); ("status", status); ("createdAt", createdAt)];
     m_associations := [("author", Sample.belongsToAuthor)];
     m_primaryKeys := [("id", uuid)] |}.

(** A model without a primary key. *)
Definition keyless : Model :=
  Sample.table "Log" [Sample.plain "line"] [].

(** A parser that throws on the value [oops]. *)
Definition strict (key value : string) (timezone : option string)
  : Result Js.value :=
  if String.eqb value "oops" then Err (Failure (Js.Str "malformed"))
  else Ok (Js.Str value).

Definition world : Collaborators :=
  {| operatorValueParser := strict;
     searchBuilder := Sample.search;
     getIncludes := Sample.includes;
     getOrder := Js.Undefined;
     getSkip := Js.Num 0;
     getLimit := Js.Num 10;
     createCompositePrimary := Sample.compositeKey;
     callWhere := fun f params => Rejected (Failure (Js.Str "denied"));
     count := Sample.counted;
     findAll := Sample.found |}.

(** [{ filter: { age: '18,oops,21' }, filterType: 'and' }]. *)
Definition malformed : Params :=
  Sample.request None (Some [("age", "18,oops,21")]) (Some "and")
                 None None None.

(** [{ search: 'ann', filter: { age: '18' }, filterType: 'and',
       segment: 'recent' }]. *)
Definition full : Params :=
  Sample.request None (Some [("age", "18")]) (Some "and") None
                 (Some "ann") (Some "recent").

(** A hook that marks the options, and one that throws. *)
Definition mark : Hook :=
  fun options search =>
    (match options with
     | Js.Obj props => Js.Obj (Js.set_props "searched" (Js.Str search) props)
     | _ => options
     end, None).

Definition broken : Hook :=
  fun options search => (options, Some (Failure (Js.Str "boom"))).

(** A registry entry with a smart field of each kind, the search fields
    [title] and [author.name], and a segment [recent] with a scope and a
    fixed condition. *)
Definition recent : Segment :=
  {| g_name := "recent"; g_scope := Js.Str "recentScope";
     g_where := Js.Obj [("recent", Js.Bool true)] |}.

Definition smart : RegistrySchema :=
  {| r_fields :=
       [ {| r_field := "title"; r_search := None |};
         {| r_field := "fullName"; r_search := Some mark |};
         {| r_field := "initials"; r_search := Some broken |} ];
     r_searchFields := Some ["title"; "author.name"];
     r_segments := Some [recent];
     r_isCompositePrimary := false |}.

(** The same, the search fields [title] and [subtitle] apart. *)
Definition misconfigured : RegistrySchema :=
  {| r_fields := [ {| r_field := "title"; r_search := None |} ];
     r_searchFields := Some ["title"; "subtitle"];
     r_segments := None;
     r_isCompositePrimary := false |}.

(** A segment function that returns a native promise, fulfilled with
    [{ published: true }], one whose native promise is rejected, and one
    that returns no promise at all. *)
Definition native (f : nat) (params : Params) : Called :=
  Thenable (Ok Sample.isPublished).

Definition nativeDenied (f : nat) (params : Params) : Called :=
  Thenable (Err (Failure (Js.Str "denied"))).

Definition bare (f : nat) (params : Params) : Called :=
  NotThenable.

Definition denied (f : nat) (params : Params) : Called :=
  Bluebird (Rejected (Failure (Js.Str "denied"))).

End Sample2.

(** ** The runtime's helpers *)

Lemma split_not_nil (c : ascii) (s : string) : Js.split c s <> [].
Proof.
  induction s as [|a r IH]; simpl.
  - discriminate.
  - destruct (Ascii.eqb a c); [discriminate|].
    destruct (Js.split c r); discriminate.
Qed.

Lemma contains_app (c : ascii) (a r : string) :
  Js.contains c (a ++ String c r)%string = true.
Proof.
  induction a as [|x a IH]; simpl.
  - now rewrite Ascii.eqb_refl.
  - destruct (Ascii.eqb x c); auto.
Qed.

(** A string that contains [c] reads [a ++ c ++ r] with no [c] in [a]. *)
Lemma contains_inv (c : ascii) (s : string) :
  Js.contains c s = true ->
  exists a r, s = (a ++ String c r)%string /\ Js.contains c a = false.
Proof.
  induction s as [|x s IH]; simpl; [discriminate|].
  destruct (Ascii.eqb x c) eqn:E.
  - intros _. apply Ascii.eqb_eq in E. subst x.
    now exists EmptyString, s.
  - intros H. destruct (IH H) as [a [r [-> Ha]]].
    exists (String x a), r. simpl. now rewrite E.
Qed.

Lemma before_app (c : ascii) (a r : string) :
  Js.contains c a = false ->
  Js.before c (a ++ String c r)%string = a.
Proof.
  unfold Js.before. revert r.
  induction a as [|x a IH]; simpl; intros r H.
  - now rewrite Ascii.eqb_refl.
  - destruct (Ascii.eqb x c); [discriminate|].
    specialize (IH r H).
    destruct (Js.split c (a ++ String c r)) as [|h t] eqn:E.
    + now destruct (split_not_nil c (a ++ String c r)).
    + simpl in *. now subst.
Qed.

Lemma replace_app (c d : ascii) (a r : string) :
  Js.contains c a = false ->
  Js.replace c d (a ++ String c r)%string = (a ++ String d r)%string.
Proof.
  induction a as [|x a IH]; simpl; intros H.
  - now rewrite Ascii.eqb_refl.
  - destruct (Ascii.eqb x c); [discriminate|].
    now rewrite IH.
Qed.

Lemma includes_In (l : list string) (x : string) :
  Js.includes l x = true <-> In x l.
Proof.
  unfold Js.includes. rewrite existsb_exists. split.
  - intros [y [Hy E]]. apply String.eqb_eq in E. now subst.
  - intros H. exists x. split; [assumption | apply String.eqb_refl].
Qed.

Lemma option_eqb_eq (a b : option string) :
  option_eqb a b = true <-> a = b.
Proof.
  destruct a as [x|], b as [y|]; simpl; try (split; congruence).
  rewrite String.eqb_eq. split; congruence.
Qed.

Section Uniq.

Variable A : Type.
Variable eqb : A -> A -> bool.
Hypothesis eqb_eq : forall a b, eqb a b = true <-> a = b.

Lemma uniq_In (l : list A) (x : A) : In x (uniq eqb l) <-> In x l.
Proof.
  induction l as [|a r IH]; simpl; [tauto|].
  rewrite filter_In, IH. split.
  - intros [H | [H _]]; auto.
  - intros [H | H]; auto.
    destruct (eqb a x) eqn:E.
    + left. now apply eqb_eq.
    + right. now split.
Qed.

Lemma uniq_NoDup (l : list A) : NoDup (uniq eqb l).
Proof.
  induction l as [|a r IH]; simpl; constructor.
  - rewrite filter_In. intros [_ H].
    assert (E : eqb a a = true) by now apply eqb_eq.
    now rewrite E in H.
  - now apply NoDup_filter.
Qed.

End Uniq.

Lemma assoc_set_props (k k' : string) (x : Js.value)
  (props : list (string * Js.value)) :
  Js.assoc k (Js.set_props k' x props)
  = if String.eqb k k' then Some x else Js.assoc k props.
Proof.
  induction props as [|[j y] r IH]; simpl.
  - reflexivity.
  - destruct (String.eqb k' j) eqn:E; simpl.
    + apply String.eqb_eq in E. subst j.
      destruct (String.eqb k k'); reflexivity.
    + rewrite IH. destruct (String.eqb k k') eqn:E'; [|reflexivity].
      apply String.eqb_eq in E'. subst k'. now rewrite E.
Qed.

(** ** The schema builder: primary keys *)

(** C1, as amended.  A model with more than one primary key gets
    [isCompositePrimary = true] and the marker ['forestCompositePrimary'] as
    [idField]; that marker is one of the model's column names exactly when
    the model itself has a column of that name.  A model with exactly one
    primary key gets [isCompositePrimary = false] and that key as
    [idField]. *)
Theorem composite_primary_marker (toString : Js.value -> string)
  (model : Model) :
  (1 < length (Js.keys (m_primaryKeys model)) ->
   s_isCompositePrimary (buildSchema toString model) = true
   /\ s_idField (buildSchema toString model) = Some forestCompositePrimary
   /\ ((exists name, In name (columnNames model)
                     /\ s_idField (buildSchema toString model) = Some name)
       <-> In forestCompositePrimary (columnNames model)))
  /\ (forall pk column,
        m_primaryKeys model = [(pk, column)] ->
        s_isCompositePrimary (buildSchema toString model) = false
        /\ s_idField (buildSchema toString model) = Some pk).
Proof.
  split.
  - intros H. apply Nat.ltb_lt in H.
    unfold buildSchema; simpl. rewrite H.
    repeat split; trivial.
    + intros [name [Hin E]]. now injection E as <-.
    + intros Hin. now exists forestCompositePrimary.
  - intros pk column E. unfold buildSchema; simpl. now rewrite E.
Qed.

Lemma composite_primary_marker_witness :
  (s_isCompositePrimary (buildSchema Sample.toString Sample.membership) = true
   /\ s_idField (buildSchema Sample.toString Sample.membership)
      = Some forestCompositePrimary)
  /\ s_idField (buildSchema Sample.toString Sample.article) = Some "id".
Proof.
  split.
  - destruct (proj1 (composite_primary_marker Sample.toString
                       Sample.membership)) as [H1 [H2 _]].
    + simpl; lia.
    + now split.
  - apply (proj2 (composite_primary_marker Sample.toString Sample.article)
             "id" (Sample.key "id")).
    reflexivity.
Defined.

(** C1 as stated fails: in a model with two primary keys one of which is a
    column called [forestCompositePrimary], [idField] is the name of a real
    column of the model. *)
Lemma composite_primary_marker_clash :
  1 < length (Js.keys (m_primaryKeys Sample.clash))
  /\ ~ (forall name, In name (columnNames Sample.clash) ->
        s_idField (buildSchema Sample.toString Sample.clash) <> Some name).
Proof.
  split.
  - simpl; lia.
  - intros H. apply (H forestCompositePrimary).
    + simpl; auto.
    + reflexivity.
Qed.

(** ** The schema builder: validations *)

Lemma filter_when (keep : Validation -> bool) (c : Js.value)
  (rules : list Validation) :
  filter keep (when c rules) = when c (filter keep rules).
Proof.
  unfold when. now destruct (Js.truthy c).
Qed.

Lemma lenRules_kept (len : Js.value) :
  filter isLengthRule (lenRules len) = lenRules len.
Proof.
  unfold lenRules.
  now destruct (Js.truthy _ && Js.truthy _).
Qed.

Lemma isRules_dropped (toString : Js.value -> string) (pattern : Js.value) :
  filter isLengthRule (isRules toString pattern) = [].
Proof.
  unfold isRules.
  now destruct (Js.truthy pattern && negb (Js.isArray pattern)).
Qed.

(** The length rules of a column the ORM does not generate are those of its
    [len] constraint, whatever its other constraints. *)
Lemma getValidations_length (toString : Js.value -> string)
  (column : Column) :
  is_true (c_autoGenerated column) = false ->
  Js.truthy (c_validate column) = true ->
  filter isLengthRule (getValidations toString column)
  = when (Js.get (c_validate column) "len")
         (lenRules (Js.get (c_validate column) "len")).
Proof.
  intros Hgen Hval. unfold getValidations.
  rewrite Hgen, Hval. simpl negb. cbv iota.
  rewrite !filter_app, !filter_when, lenRules_kept, isRules_dropped.
  destruct (is_false (c_allowNull column)); simpl;
    unfold when;
    repeat match goal with
           | |- context [if Js.truthy ?v then [] else []] =>
               destruct (Js.truthy v)
           end;
    now rewrite ?app_nil_r.
Qed.

(** C3, as amended.  A column the ORM generates has no validation.  For any
    other column with a length constraint, the length rules among its
    validations are exactly: ['is longer than'] the lower bound followed by
    ['is shorter than'] the upper bound when the constraint gives two
    bounds that are both truthy; one ['is longer than'] the scalar when the
    constraint is a bare number.  They are all of its validations when the
    length constraint is the column's only constraint. *)
Theorem length_validations (toString : Js.value -> string) (column : Column) :
  let len := Js.get (c_validate column) "len" in
  let length := Js.or (Js.get len "args") len in
  let message := Js.get len "msg" in
  (is_true (c_autoGenerated column) = true ->
   getValidations toString column = [])
  /\ (is_true (c_autoGenerated column) = false ->
      Js.truthy len = true ->
      (forall lo hi,
         length = Js.Arr [lo; hi] ->
         Js.truthy lo = true -> Js.truthy hi = true ->
         filter isLengthRule (getValidations toString column)
         = [longerThan lo message; shorterThan hi message])
      /\ (forall n,
            length = Js.Num n ->
            filter isLengthRule (getValidations toString column)
            = [longerThan (Js.Num n) message])
      /\ (is_false (c_allowNull column) = false ->
          c_validate column = Js.Obj [("len", len)] ->
          getValidations toString column
          = filter isLengthRule (getValidations toString column))).
Proof.
  intros len length message. split.
  - intros H. unfold getValidations. now rewrite H.
  - intros Hgen Hlen.
    assert (Hval : Js.truthy (c_validate column) = true).
    { subst len. destruct (c_validate column); try discriminate Hlen.
      reflexivity. }
    pose proof (getValidations_length toString column Hgen Hval) as F.
    fold len in F. unfold when in F. rewrite Hlen in F.
    repeat split.
    + intros lo hi E Hlo Hhi. rewrite F. unfold lenRules.
      fold length message. rewrite E. simpl. now rewrite Hlo, Hhi.
    + intros n E. rewrite F. unfold lenRules.
      fold length message. now rewrite E.
    + intros Hnull E. rewrite F.
      unfold getValidations. rewrite Hgen, Hval, Hnull, E. simpl.
      unfold when. fold len. rewrite Hlen. simpl.
      unfold isRules. simpl. now rewrite app_nil_r.
Qed.

Lemma length_validations_witness :
  getValidations Sample.toString (Sample.generated (Sample.bounds 2 10)) = []
  /\ filter isLengthRule
       (getValidations Sample.toString (Sample.mandatory (Sample.bounds 2 10)))
     = [longerThan (Js.Num 2) Js.Undefined;
        shorterThan (Js.Num 10) Js.Undefined]
  /\ filter isLengthRule
       (getValidations Sample.toString
          (Sample.named (Js.Obj [("len", Js.Num 5)])))
     = [longerThan (Js.Num 5) Js.Undefined]
  /\ getValidations Sample.toString (Sample.named (Sample.bounds 2 10))
     = filter isLengthRule
         (getValidations Sample.toString (Sample.named (Sample.bounds 2 10))).
Proof.
  split; [|split; [|split]].
  - apply (proj1 (length_validations Sample.toString
                    (Sample.generated (Sample.bounds 2 10)))).
    reflexivity.
  - apply (proj1 (proj2 (length_validations Sample.toString
                           (Sample.mandatory (Sample.bounds 2 10)))
                        eq_refl eq_refl)
             (Js.Num 2) (Js.Num 10) eq_refl eq_refl eq_refl).
  - apply (proj1 (proj2 (proj2 (length_validations Sample.toString
                                  (Sample.named (Js.Obj [("len", Js.Num 5)])))
                               eq_refl eq_refl))
             5%Z eq_refl).
  - apply (proj2 (proj2 (proj2 (length_validations Sample.toString
                                  (Sample.named (Sample.bounds 2 10)))
                               eq_refl eq_refl))
             eq_refl eq_refl).
Defined.

(** C3 as stated fails on a column that has a length constraint with two
    bounds: it has no validation at all when the ORM generates it, and three
    when it is also declared [allowNull: false]. *)
Lemma length_validations_not_two :
  Js.get (c_validate (Sample.generated (Sample.bounds 2 10))) "len"
  = Js.Arr [Js.Num 2; Js.Num 10]
  /\ getValidations Sample.toString (Sample.generated (Sample.bounds 2 10))
     = []
  /\ getValidations Sample.toString (Sample.mandatory (Sample.bounds 2 10))
     = [ {| v_type := "is present"; v_value := None; v_message := None |};
         longerThan (Js.Num 2) Js.Undefined;
         shorterThan (Js.Num 10) Js.Undefined ].
Proof.
  repeat split.
Qed.

(** A lower bound of zero is not seen as a bound: [len: [0, 10]] gives one
    ['is longer than'] rule whose value is the whole pair. *)
Lemma length_zero_lower_bound :
  getValidations Sample.toString (Sample.named (Sample.bounds 0 10))
  = [longerThan (Js.Arr [Js.Num 0; Js.Num 10]) Js.Undefined].
Proof.
  reflexivity.
Qed.

(** ** The schema builder: foreign keys *)

Lemma excluded_In (model : Model) (association : Association) :
  In association (Js.values (m_associations model)) ->
  a_associationType association = BelongsTo ->
  Js.includes (fieldNamesToExclude model) (a_identifierField association)
  = true.
Proof.
  intros Hin Hty. apply includes_In.
  unfold fieldNamesToExclude. apply in_flat_map.
  exists association. split; [assumption|].
  unfold excluded. rewrite Hty. now left.
Qed.

Lemma primary_key_column_kept (toString : Js.value -> string)
  (model : Model) (column : Column) :
  In column (Js.values (m_attributes model)) ->
  c_primaryKey column = Some true ->
  In (getSchemaForColumn toString model column)
     (s_fields (buildSchema toString model)).
Proof.
  intros Hin Hpk. unfold buildSchema; simpl.
  apply filter_In. split.
  - apply in_or_app. left. unfold columns. apply in_flat_map.
    exists column. split; [assumption|].
    rewrite Hpk. rewrite andb_false_r. now left.
  - unfold toRemove; simpl. rewrite Hpk; simpl. now rewrite andb_false_r.
Qed.

(** C4.  For every belongs-to-one association of the model, a field of the
    produced schema whose column is the association's foreign-key column is
    a primary key: the schema of a foreign-key column that is not a primary
    key is absent from the final fields, and the schema of one that is a
    primary key is among them. *)
Theorem belongs_to_foreign_key_excluded (toString : Js.value -> string)
  (model : Model) (association : Association) :
  In association (Js.values (m_associations model)) ->
  a_associationType association = BelongsTo ->
  (forall field,
     In field (s_fields (buildSchema toString model)) ->
     f_columnName field = Some (a_identifierField association) ->
     f_primaryKey field = true)
  /\ (forall column,
        c_field column = a_identifierField association ->
        c_primaryKey column <> Some true ->
        ~ In (getSchemaForColumn toString model column)
             (s_fields (buildSchema toString model)))
  /\ (forall column,
        In column (Js.values (m_attributes model)) ->
        c_field column = a_identifierField association ->
        c_primaryKey column = Some true ->
        In (getSchemaForColumn toString model column)
           (s_fields (buildSchema toString model))).
Proof.
  intros Hin Hty.
  assert (Absent : forall field,
             In field (s_fields (buildSchema toString model)) ->
             f_columnName field = Some (a_identifierField association) ->
             f_primaryKey field = true).
  { intros field Hf Hc. unfold buildSchema in Hf; simpl in Hf.
    apply filter_In in Hf. destruct Hf as [_ Hkeep].
    unfold toRemove in Hkeep. rewrite Hc in Hkeep.
    rewrite (excluded_In model association Hin Hty) in Hkeep.
    simpl in Hkeep. now destruct (f_primaryKey field). }
  split; [exact Absent|]. split.
  - intros column Hc Hpk Hf.
    specialize (Absent _ Hf). simpl in Absent.
    rewrite Hc in Absent. specialize (Absent eq_refl).
    destruct (c_primaryKey column) as [[|]|]; simpl in Absent;
      congruence.
  - intros column Hc _ Hpk. now apply primary_key_column_kept.
Qed.

Lemma belongs_to_foreign_key_excluded_witness :
  ~ In (getSchemaForColumn Sample.toString Sample.post Sample.authorId)
       (s_fields (buildSchema Sample.toString Sample.post))
  /\ In (getSchemaForColumn Sample.toString Sample.profile
           (Sample.key "authorId"))
        (s_fields (buildSchema Sample.toString Sample.profile)).
Proof.
  split.
  - apply (proj1 (proj2 (belongs_to_foreign_key_excluded Sample.toString
                           Sample.post Sample.belongsToAuthor
                           (or_introl eq_refl) eq_refl))
             Sample.authorId eq_refl).
    discriminate.
  - apply (proj2 (proj2 (belongs_to_foreign_key_excluded Sample.toString
                           Sample.profile Sample.belongsToAuthor
                           (or_introl eq_refl) eq_refl))
             (Sample.key "authorId") (or_introl eq_refl) eq_refl eq_refl).
Defined.

(** The fields of the two sample schemas, by name. *)
Example post_fields :
  map f_field (s_fields (buildSchema Sample.toString Sample.post))
  = ["id"; "title"; "author"]
  /\ map f_field (s_fields (buildSchema Sample.toString Sample.profile))
     = ["authorId"; "bio"; "author"].
Proof.
  split; reflexivity.
Qed.

(** ** The resources getter: requested field names *)

Section FieldNames.

Variable model : Model.
Variable params : Params.

(** The elements of the computed set, when fields are requested. *)
Lemma fieldNamesRequested_In (fields : list (string * string))
  (requested : string) (x : option string) :
  p_fields params = Some fields ->
  Js.assoc (m_name model) fields = Some requested ->
  requested <> EmptyString ->
  exists set,
    fieldNamesRequested model params = Some set
    /\ NoDup set
    /\ (In x set <->
        x = nth_error (Js.keys (m_primaryKeys model)) 0
        \/ (exists field, x = Some field
                          /\ In field (Js.split "," requested))
        \/ (exists name, x = Some name
                         /\ In name (filterAssociations params))
        \/ (exists name, x = Some name
                         /\ In name (sortAssociation params))).
Proof.
  intros Hf Ha Hne. unfold fieldNamesRequested. rewrite Hf, Ha.
  apply String.eqb_neq in Hne. rewrite Hne.
  eexists. split; [reflexivity|]. split.
  - apply (uniq_NoDup _ _ option_eqb_eq).
  - rewrite (uniq_In _ _ option_eqb_eq). simpl.
    rewrite !in_app_iff, !in_map_iff. split.
    + intros [H | [[f [E H]] | [a [E H]]]]; auto.
      * right; left. now exists f.
      * apply in_app_or in H. destruct H as [H | H].
        -- right; right; left. now exists a.
        -- right; right; right. now exists a.
    + intros [H | [[f [E H]] | [[a [E H]] | [a [E H]]]]]; auto.
      * right; left. now exists f.
      * right; right. exists a. split; auto using in_or_app.
      * right; right. exists a. split; auto using in_or_app.
Qed.

Lemma filterAssociations_In (filter : list (string * string))
  (key values : string) :
  p_filter params = Some filter ->
  In (key, values) filter ->
  Js.contains ":" key = true ->
  In (Js.before ":" key) (filterAssociations params).
Proof.
  intros Hf Hin Hc. unfold filterAssociations. rewrite Hf.
  apply in_flat_map. exists (key, values). split; [assumption|].
  simpl. rewrite Hc. now left.
Qed.

(** C5.  When the request names fields for the model, the computed set
    holds the model's primary key (the first one declared, when the model
    has several), every requested field, the association before the [':']
    of every filter key that has one and the association before the ['.']
    of a dotted sort key, and nothing else; when it names none, the set is
    [null]. *)
Theorem requested_field_names :
  (forall fields requested,
     p_fields params = Some fields ->
     Js.assoc (m_name model) fields = Some requested ->
     requested <> EmptyString ->
     exists set,
       fieldNamesRequested model params = Some set
       /\ (forall pk,
             nth_error (Js.keys (m_primaryKeys model)) 0 = Some pk ->
             In (Some pk) set)
       /\ (forall field,
             In field (Js.split "," requested) -> In (Some field) set)
       /\ (forall filter key values,
             p_filter params = Some filter ->
             In (key, values) filter ->
             Js.contains ":" key = true ->
             In (Some (Js.before ":" key)) set)
       /\ (forall sort,
             p_sort params = Some sort ->
             Js.contains "." sort = true ->
             In (Some (Js.before "." sort)) set)
       /\ (forall x,
             In x set ->
             x = nth_error (Js.keys (m_primaryKeys model)) 0
             \/ (exists field, x = Some field
                               /\ In field (Js.split "," requested))
             \/ (exists filter key values,
                   p_filter params = Some filter
                   /\ In (key, values) filter
                   /\ Js.contains ":" key = true
                   /\ x = Some (Js.before ":" key))
             \/ (exists sort,
                   p_sort params = Some sort
                   /\ Js.contains "." sort = true
                   /\ x = Some (Js.before "." sort))))
  /\ (p_fields params = None -> fieldNamesRequested model params = None)
  /\ (forall fields,
        p_fields params = Some fields ->
        Js.assoc (m_name model) fields = None
        \/ Js.assoc (m_name model) fields = Some EmptyString ->
        fieldNamesRequested model params = None).
Proof.
  split; [|split].
  - intros fields requested Hf Ha Hne.
    destruct (fieldNamesRequested_In fields requested None Hf Ha Hne)
      as [set [E _]].
    exists set. split; [assumption|].
    assert (Mem : forall x,
               In x set <->
               x = nth_error (Js.keys (m_primaryKeys model)) 0
               \/ (exists field, x = Some field
                                 /\ In field (Js.split "," requested))
               \/ (exists name, x = Some name
                                /\ In name (filterAssociations params))
               \/ (exists name, x = Some name
                                /\ In name (sortAssociation params))).
    { intros x. destruct (fieldNamesRequested_In fields requested x Hf Ha Hne)
        as [set' [E' [_ M]]].
      rewrite E in E'. injection E' as <-. exact M. }
    repeat split.
    + intros pk Hpk. apply Mem. now left.
    + intros field Hin. apply Mem. right; left. now exists field.
    + intros filter key values Hfl Hin Hc. apply Mem. right; right; left.
      eexists. split; [reflexivity|].
      now apply filterAssociations_In with filter values.
    + intros sort Hs Hc. apply Mem. right; right; right.
      eexists. split; [reflexivity|].
      unfold sortAssociation. rewrite Hs, Hc.
      destruct sort; [discriminate Hc|]. now left.
    + intros x Hx. apply Mem in Hx.
      destruct Hx as [H | [H | [[a [Ex H]] | [a [Ex H]]]]]; auto.
      * right; right; left. unfold filterAssociations in H.
        destruct (p_filter params) as [filter|] eqn:Hfl; [|contradiction].
        apply in_flat_map in H. destruct H as [[key values] [Hin H]].
        simpl in H. destruct (Js.contains ":" key) eqn:Hc; [|contradiction].
        destruct H as [H | []]. subst.
        now exists filter, key, values.
      * right; right; right. unfold sortAssociation in H.
        destruct (p_sort params) as [sort|]; [|contradiction].
        destruct (negb (String.eqb sort "")); [|contradiction].
        simpl in H. destruct (Js.contains "." sort) eqn:Hc; [|contradiction].
        destruct H as [H | []]. subst. now exists sort.
  - intros H. unfold fieldNamesRequested. now rewrite H.
  - intros fields Hf [H | H]; unfold fieldNamesRequested; now rewrite Hf, H.
Qed.

End FieldNames.

Lemma requested_field_names_witness :
  fieldNamesRequested Sample.post Sample.byAuthor
  = Some [Some "id"; Some "title"; Some "author"]
  /\ In (Some "id") [Some "id"; Some "title"; Some "author"]
  /\ fieldNamesRequested Sample.post Sample.someAge = None.
Proof.
  destruct (proj1 (requested_field_names Sample.post Sample.byAuthor)
              [("Post", "title")] "title" eq_refl eq_refl)
    as [set [E [Pk _]]].
  - discriminate.
  - injection E as <-. split; [reflexivity|]. split.
    + apply (Pk "id"). reflexivity.
    + apply (proj1 (proj2 (requested_field_names Sample.post
                             Sample.someAge))).
      reflexivity.
Defined.

(** In a model with several primary keys it is the first one that is
    forced into the set. *)
Example requested_field_names_composite :
  fieldNamesRequested Sample.membership Sample.roles
  = Some [Some "userId"; Some "role"].
Proof.
  reflexivity.
Qed.

(** ** The resources getter: filter conditions *)

Section MapM.

Variables A B : Type.
Variable f : A -> Result B.

Lemma mapM_Forall2 (l : list A) (bs : list B) :
  mapM f l = Ok bs <-> Forall2 (fun a b => f a = Ok b) l bs.
Proof.
  revert bs. induction l as [|a r IH]; simpl; intros bs.
  - split.
    + intros E. injection E as <-. constructor.
    + intros H. now inversion H.
  - destruct (f a) as [b|e] eqn:Ea; simpl.
    + destruct (mapM f r) as [bs'|e] eqn:Er; simpl.
      * split.
        -- intros E. injection E as <-. constructor; [assumption|].
           now apply IH.
        -- intros H. inversion H; subst.
           assert (b = y) by congruence. subst y.
           assert (E' : Ok bs' = Ok l') by now apply IH.
           now injection E' as ->.
      * split; [discriminate|].
        intros H. inversion H; subst.
        assert (E' : Err e = Ok l') by now apply IH.
        discriminate.
    + split; [discriminate|].
      intros H. inversion H; subst. congruence.
Qed.

Lemma mapM_total (l : list A) :
  (forall a, In a l -> exists b, f a = Ok b) ->
  exists bs, mapM f l = Ok bs.
Proof.
  induction l as [|a r IH]; simpl; intros H.
  - now exists [].
  - destruct (H a (or_introl eq_refl)) as [b Eb]. rewrite Eb. simpl.
    destruct IH as [bs Ebs]; [intros; apply H; now right|].
    rewrite Ebs. simpl. now exists (b :: bs).
Qed.

End MapM.

Lemma Forall2_In_l (A B : Type) (R : A -> B -> Prop) (l : list A)
  (l' : list B) (a : A) :
  Forall2 R l l' -> In a l -> exists b, In b l' /\ R a b.
Proof.
  induction 1 as [|x y l l' Hxy H IH]; simpl; [contradiction|].
  intros [<- | Hin].
  - exists y. auto.
  - destruct (IH Hin) as [b [Hb Hr]]. exists b. auto.
Qed.

Lemma Forall2_In_r (A B : Type) (R : A -> B -> Prop) (l : list A)
  (l' : list B) (b : B) :
  Forall2 R l l' -> In b l' -> exists a, In a l /\ R a b.
Proof.
  induction 1 as [|x y l l' Hxy H IH]; simpl; [contradiction|].
  intros [<- | Hin].
  - exists x. auto.
  - destruct (IH Hin) as [a [Ha Hr]]. exists a. auto.
Qed.

Lemma append_assoc (a b c : string) :
  ((a ++ b) ++ c)%string = (a ++ b ++ c)%string.
Proof.
  induction a as [|x a IH]; simpl; [reflexivity|]. now rewrite IH.
Qed.

Section Filter.

Variable params : Params.
Variable world : Collaborators.

Lemma condition_elementary (kv : string * string) (c : Js.value) :
  condition params world kv = Ok c <-> elementary params world kv c.
Proof.
  unfold condition, elementary.
  destruct (operatorValueParser world (fst kv) (snd kv) (p_timezone params))
    as [parsed|e]; simpl.
  - split.
    + intros E. injection E as <-. now exists parsed.
    + intros [p [E ->]]. now injection E as ->.
  - split; [discriminate|]. intros [p [E _]]. discriminate.
Qed.

(** The conditions are the elementary conditions of the pairs of a key and
    one of its values, in the order of the two loops. *)
Lemma filterConditions_Forall2 (filter : list (string * string))
  (conditions : list Js.value) :
  filterConditions params world filter = Ok conditions <->
  Forall2 (elementary params world) (filterPairs filter) conditions.
Proof.
  unfold filterConditions. rewrite mapM_Forall2. split; intros H.
  - induction H; constructor; auto. now apply condition_elementary.
  - induction H; constructor; auto. now apply condition_elementary.
Qed.

Lemma filterPairs_In (filter : list (string * string))
  (key values value : string) :
  In (key, values) filter ->
  In value (Js.split "," values) ->
  In (whereKey key, value) (filterPairs filter).
Proof.
  intros Hin Hv. unfold filterPairs. apply in_flat_map.
  exists (key, values). split; [assumption|].
  simpl. now apply in_map.
Qed.

Lemma filterPairs_length (filter : list (string * string)) :
  length (filterPairs filter)
  = list_sum (map (fun kv => length (Js.split "," (snd kv))) filter).
Proof.
  unfold filterPairs.
  induction filter as [|kv r IH]; simpl; [reflexivity|].
  now rewrite length_app, length_map, IH.
Qed.

Lemma whereKey_association (association rest : string) :
  Js.contains ":" association = false ->
  whereKey (association ++ String ":" rest)
  = ("$" ++ association ++ String "." rest ++ "$")%string.
Proof.
  intros H. unfold whereKey.
  rewrite contains_app, replace_app by assumption.
  simpl. now rewrite append_assoc.
Qed.

End Filter.

(** C2, as amended.  [handleFilterParams] returns whenever the parser
    accepts every value.  What it returns is built from one elementary
    condition for each value of each key's comma-separated string, in the
    order of the keys and of their values: under a filter mode
    ([filterType] ['or'] or ['and']) it is the object whose one key,
    ['$or'] or ['$and'], holds the list of all of them; without a filter
    mode it is the empty object, and holds none of them. *)
Theorem filter_conditions_combined (params : Params) (world : Collaborators)
  (filter : list (string * string)) :
  ((forall kv,
      In kv (filterPairs filter) ->
      exists parsed,
        operatorValueParser world (fst kv) (snd kv) (p_timezone params)
        = Ok parsed) ->
   exists where_, handleFilterParams params world filter = Ok where_)
  /\ (forall where_,
        handleFilterParams params world filter = Ok where_ ->
        exists conditions,
          Forall2 (elementary params world) (filterPairs filter) conditions
          /\ length conditions
             = list_sum
                 (map (fun kv => length (Js.split "," (snd kv))) filter)
          /\ (forall filterType,
                p_filterType params = Some filterType ->
                filterType <> EmptyString ->
                where_
                = Js.Obj [(("$" ++ filterType)%string, Js.Arr conditions)])
          /\ (present (p_filterType params) = false ->
              where_ = Js.Obj [])).
Proof.
  split.
  - intros Hall. unfold handleFilterParams, filterConditions.
    destruct (mapM_total _ _ (condition params world) (filterPairs filter))
      as [cs E].
    + intros kv Hin. destruct (Hall kv Hin) as [parsed Hp].
      exists (Js.Obj [(fst kv, parsed)]).
      apply condition_elementary. now exists parsed.
    + rewrite E. simpl. eauto.
  - intros where_ H. unfold handleFilterParams in H.
    destruct (filterConditions params world filter) as [cs|e] eqn:E;
      simpl in H; [|discriminate].
    injection H as <-. exists cs. split; [|split; [|split]].
    + now apply filterConditions_Forall2.
    + apply filterConditions_Forall2 in E.
      rewrite <- (Forall2_length E). apply filterPairs_length.
    + intros filterType Hft Hne. rewrite Hft.
      apply String.eqb_neq in Hne. now rewrite Hne.
    + unfold present. destruct (p_filterType params) as [ft|]; [|reflexivity].
      destruct (String.eqb ft ""); [reflexivity | discriminate].
Qed.

Lemma filter_conditions_combined_witness :
  handleFilterParams Sample.anyAge Sample.world Sample.ages
  = Ok (Js.Obj [("$or", Js.Arr [Js.Obj [("age", Js.Str "18")];
                               Js.Obj [("age", Js.Str "21")]])]).
Proof.
  destruct (proj1 (filter_conditions_combined Sample.anyAge Sample.world
                     Sample.ages)) as [where_ E].
  - intros kv _. now exists (Js.Str (snd kv)).
  - rewrite E. f_equal.
    destruct (proj2 (filter_conditions_combined Sample.anyAge Sample.world
                       Sample.ages) where_ E)
      as [conditions [F [_ [Mode _]]]].
    rewrite (Mode "or" eq_refl); [|discriminate].
    inversion F as [|kv1 c1 l1 l1' [p1 [E1 ->]] F1]; subst.
    inversion F1 as [|kv2 c2 l2 l2' [p2 [E2 ->]] F2]; subst.
    inversion F2; subst.
    simpl in E1, E2. unfold Sample.parser in E1, E2.
    injection E1 as <-. injection E2 as <-. reflexivity.
Defined.

(** C2 as stated fails: without [filterType] the two age conditions are
    built and dropped, and the filter condition that is returned, and that
    goes into the where-clause, is the empty object. *)
Lemma filter_conditions_dropped :
  p_filterType Sample.someAge = None
  /\ filterConditions Sample.someAge Sample.world Sample.ages
     = Ok [Js.Obj [("age", Js.Str "18")]; Js.Obj [("age", Js.Str "21")]]
  /\ handleFilterParams Sample.someAge Sample.world Sample.ages
     = Ok (Js.Obj [])
  /\ getWhere Sample.article Sample.someAge Sample.world Js.Undefined
     = Ok (Js.Obj [("$and", Js.Arr [Js.Obj []])]).
Proof.
  repeat split.
Qed.

(** The conditions and the field set of a filter key [association:rest]. *)
Lemma association_filter_key_parts (model : Model) (params : Params)
  (world : Collaborators) (filter : list (string * string))
  (association rest values : string) :
  Js.contains ":" association = false ->
  p_filter params = Some filter ->
  In ((association ++ ":" ++ rest)%string, values) filter ->
  whereKey (association ++ ":" ++ rest)
  = ("$" ++ association ++ "." ++ rest ++ "$")%string
  /\ (forall conditions value,
        filterConditions params world filter = Ok conditions ->
        In value (Js.split "," values) ->
        exists parsed,
          operatorValueParser world
            ("$" ++ association ++ "." ++ rest ++ "$")%string value
            (p_timezone params) = Ok parsed
          /\ In (Js.Obj [(("$" ++ association ++ "." ++ rest ++ "$")%string,
                          parsed)])
                conditions)
  /\ (forall set,
        fieldNamesRequested model params = Some set ->
        In (Some association) set).
Proof.
  intros Hc Hf Hin.
  assert (K : whereKey (association ++ ":" ++ rest)
              = ("$" ++ association ++ "." ++ rest ++ "$")%string)
    by exact (whereKey_association association rest Hc).
  split; [exact K|]. split.
  - intros conditions value E Hv.
    apply filterConditions_Forall2 in E.
    pose proof (filterPairs_In filter _ _ value Hin Hv) as P.
    destruct (Forall2_In_l _ _ _ _ _ _ E P) as [c [Hcin [parsed [Ep ->]]]].
    cbn [fst snd] in Ep, Hcin. rewrite K in Ep, Hcin.
    exists parsed. now split.
  - intros set E.
    assert (Requested : exists fields requested,
               p_fields params = Some fields
               /\ Js.assoc (m_name model) fields = Some requested
               /\ requested <> EmptyString).
    { unfold fieldNamesRequested in E.
      destruct (p_fields params) as [fields|]; [|discriminate].
      destruct (Js.assoc (m_name model) fields) as [requested|] eqn:Ha;
        [|discriminate].
      destruct (String.eqb requested "") eqn:Hne; [discriminate|].
      exists fields, requested. repeat split; trivial.
      now apply String.eqb_neq. }
    destruct Requested as [fields [requested [Hfs [Ha Hne]]]].
    destruct (fieldNamesRequested_In model params fields requested
                (Some association) Hfs Ha Hne) as [set' [E' [_ Mem]]].
    rewrite E in E'. injection E' as <-.
    apply Mem. right; right; left.
    exists association. split; [reflexivity|].
    rewrite <- (before_app ":" association rest Hc) at 1.
    apply filterAssociations_In with filter values; trivial.
    apply contains_app.
Qed.

(** C6.  Every filter key that contains [':'] reads [association:rest],
    [association] being what comes before its first [':'].  The conditions
    built for it have the key ['$association.rest$'], which is also the key
    the parser is given: when the parser accepts the values of the filter
    there is one such condition for each value of the key, and under a
    filter mode they are in the filter condition, which is in the
    where-clause.  When the request names fields for the model, the
    computed set of field names exists and holds [association], in the list
    of requested fields or not. *)
Theorem association_filter_key (model : Model) (params : Params)
  (world : Collaborators) (filter : list (string * string))
  (key values : string) :
  p_filter params = Some filter ->
  In (key, values) filter ->
  Js.contains ":" key = true ->
  exists association rest,
    key = (association ++ ":" ++ rest)%string
    /\ Js.before ":" key = association
    /\ whereKey key = ("$" ++ association ++ "." ++ rest ++ "$")%string
    /\ (forall conditions value,
          filterConditions params world filter = Ok conditions ->
          In value (Js.split "," values) ->
          exists parsed,
            operatorValueParser world (whereKey key) value
              (p_timezone params) = Ok parsed
            /\ In (Js.Obj [(whereKey key, parsed)]) conditions)
    /\ (forall set,
          fieldNamesRequested model params = Some set ->
          In (Some association) set)
    /\ ((forall kv,
           In kv (filterPairs filter) ->
           exists parsed,
             operatorValueParser world (fst kv) (snd kv) (p_timezone params)
             = Ok parsed) ->
        exists conditions,
          filterConditions params world filter = Ok conditions
          /\ (exists value parsed,
                In value (Js.split "," values)
                /\ In (Js.Obj [(whereKey key, parsed)]) conditions)
          /\ (forall filterType,
                p_filterType params = Some filterType ->
                filterType <> EmptyString ->
                handleFilterParams params world filter
                = Ok (Js.Obj [(("$" ++ filterType)%string,
                               Js.Arr conditions)])
                /\ forall segmentWhere,
                     exists before after,
                       getWhere model params world segmentWhere
                       = Ok (Js.Obj
                               [("$and",
                                 Js.Arr
                                   (before
                                    ++ Js.Obj [(("$" ++ filterType)%string,
                                                Js.Arr conditions)]
                                    :: after))])))
    /\ (forall fields requested,
          p_fields params = Some fields ->
          Js.assoc (m_name model) fields = Some requested ->
          requested <> EmptyString ->
          exists set,
            fieldNamesRequested model params = Some set
            /\ In (Some association) set).
Proof.
  intros Hf Hin Hc.
  destruct (contains_inv ":" key Hc) as [association [rest [-> Ha]]].
  destruct (association_filter_key_parts model params world filter
              association rest values Ha Hf Hin) as [K [Conditions Names]].
  exists association, rest. split; [reflexivity|]. split.
  { now apply before_app. }
  split; [exact K|].
  change (String ":" rest) with (":" ++ rest)%string.
  rewrite K. split; [exact Conditions|]. split; [exact Names|]. split.
  - intros Accepts.
    destruct (mapM_total _ _ (condition params world) (filterPairs filter))
      as [conditions E].
    { intros kv Hkv. destruct (Accepts kv Hkv) as [parsed Hp].
      exists (Js.Obj [(fst kv, parsed)]).
      apply condition_elementary. now exists parsed. }
    fold (filterConditions params world filter) in E.
    exists conditions. split; [exact E|]. split.
    + destruct (Js.split "," values) as [|value others] eqn:Es.
      * now destruct (split_not_nil "," values).
      * destruct (Conditions conditions value E) as [parsed [_ Hp]].
        { now left. }
        exists value, parsed. split; [now left | exact Hp].
    + intros filterType Hft Hne.
      assert (H : handleFilterParams params world filter
                  = Ok (Js.Obj [(("$" ++ filterType)%string,
                                 Js.Arr conditions)])).
      { unfold handleFilterParams. rewrite E, Hft. simpl.
        apply String.eqb_neq in Hne. now rewrite Hne. }
      split; [exact H|].
      intros segmentWhere. unfold getWhere, whereParts. cbv zeta.
      rewrite Hf, H. simpl. eexists _, _. reflexivity.
  - intros fields requested Hfs Hr Hne.
    destruct (fieldNamesRequested_In model params fields requested
                (Some association) Hfs Hr Hne) as [set [E _]].
    exists set. split; [exact E | now apply Names].
Qed.

Lemma association_filter_key_witness :
  (exists before after,
     getWhere Sample.post Sample.byAuthor Sample.world Js.Undefined
     = Ok (Js.Obj
             [("$and",
               Js.Arr
                 (before
                  ++ Js.Obj [("$and",
                              Js.Arr [Js.Obj [("$author.name$",
                                               Js.Str "Ann")]])]
                  :: after))]))
  /\ exists set,
       fieldNamesRequested Sample.post Sample.byAuthor = Some set
       /\ In (Some "author") set.
Proof.
  destruct (association_filter_key Sample.post Sample.byAuthor Sample.world
              [("author:name", "Ann")] "author:name" "Ann"
              eq_refl (or_introl eq_refl) eq_refl)
    as [association [rest [_ [Before [_ [_ [_ [Total Names]]]]]]]].
  simpl in Before. subst association. split.
  - assert (Accepts : forall kv,
               In kv (filterPairs [("author:name", "Ann")]) ->
               exists parsed,
                 operatorValueParser Sample.world (fst kv) (snd kv)
                   (p_timezone Sample.byAuthor) = Ok parsed).
    { intros kv _. now exists (Js.Str (snd kv)). }
    destruct (Total Accepts) as [conditions [E [_ Mode]]].
    injection E as <-.
    assert (Hne : "and" <> EmptyString) by discriminate.
    destruct (Mode "and" eq_refl Hne) as [_ Where].
    exact (Where Js.Undefined).
  - apply (Names [("Post", "title")] "title" eq_refl eq_refl).
    discriminate.
Defined.

(** The sample request: the key and the set. *)
Example author_name_key :
  whereKey "author:name" = "$author.name$"
  /\ filterConditions Sample.byAuthor Sample.world [("author:name", "Ann")]
     = Ok [Js.Obj [("$author.name$", Js.Str "Ann")]]
  /\ fieldNamesRequested Sample.post Sample.byAuthor
     = Some [Some "id"; Some "title"; Some "author"].
Proof.
  repeat split.
Qed.

(** Only the first [':'] of a key is rewritten. *)
Example whereKey_two_separators :
  whereKey "author:address:city" = "$author.address:city$".
Proof.
  reflexivity.
Qed.

(** ** The resources getter: the two queries *)

Section Queries.

Variable model : Model.
Variable schema : RegistrySchema.
Variable params : Params.
Variable world : Collaborators.

Lemma selectSearchFields_log (declared : list string) :
  Forall (fun e => isLog e = true)
         (selectSearchFields model schema declared).
Proof.
  unfold selectSearchFields. cbv zeta.
  apply Forall_app. split.
  - destruct (xor _ _); repeat constructor.
  - destruct (xor _ _); repeat constructor.
Qed.

Lemma searchWarnings_log :
  Forall (fun e => isLog e = true) (searchWarnings model schema).
Proof.
  unfold searchWarnings. destruct (r_searchFields schema).
  - apply selectSearchFields_log.
  - constructor.
Qed.

Lemma searchHooks_log (fields : list RegistryField) (search : string)
  (c f : Js.value) :
  Forall (fun e => isLog e = true) (fst (searchHooks fields search c f)).
Proof.
  revert c f. induction fields as [|field rest IH]; intros c f; simpl.
  - constructor.
  - destruct (r_search field) as [hook|]; [|apply IH].
    destruct (hook c search) as [c' [error|]].
    + specialize (IH c' f).
      destruct (searchHooks rest search c' f) as [log opts].
      constructor; [reflexivity | exact IH].
    + destruct (hook f search) as [f' thrown].
      specialize (IH c' f').
      destruct (searchHooks rest search c' f') as [log opts].
      destruct thrown; [constructor; [reflexivity|] |]; exact IH.
Qed.

Lemma searched_log (c f : Js.value) :
  Forall (fun e => isLog e = true) (fst (searched schema params c f)).
Proof.
  unfold searched. destruct (p_search params) as [search|].
  - destruct (negb (String.eqb search "")).
    + apply searchHooks_log.
    + constructor.
  - constructor.
Qed.

(** Without a search term no hook runs. *)
Lemma searched_absent (c f : Js.value) :
  present (p_search params) = false ->
  searched schema params c f = ([], (c, f)).
Proof.
  unfold present, searched. destruct (p_search params) as [search|].
  - now intros ->.
  - reflexivity.
Qed.

Lemma countOpts_Ok (segmentWhere c : Js.value) :
  countOpts model params world segmentWhere = Ok c <->
  exists where_,
    getWhere model params world segmentWhere = Ok where_
    /\ c = Js.Obj [("include",
                    getIncludes world (fieldNamesRequested model params));
                   ("where", where_)].
Proof.
  unfold countOpts.
  destruct (getWhere model params world segmentWhere) as [w|e]; simpl.
  - split.
    + intros E. injection E as <-. now exists w.
    + intros [w' [E ->]]. now injection E as ->.
  - split; [discriminate|]. intros [w' [E _]]. discriminate.
Qed.

Lemma findAllOpts_Ok (segmentWhere f : Js.value) :
  findAllOpts model params world segmentWhere = Ok f <->
  exists where_,
    getWhere model params world segmentWhere = Ok where_
    /\ f = Js.Obj [("where", where_);
                   ("include",
                    getIncludes world (fieldNamesRequested model params));
                   ("order", getOrder world);
                   ("offset", getSkip world);
                   ("limit", getLimit world)].
Proof.
  unfold findAllOpts.
  destruct (getWhere model params world segmentWhere) as [w|e]; simpl.
  - split.
    + intros E. injection E as <-. now exists w.
    + intros [w' [E ->]]. now injection E as ->.
  - split; [discriminate|]. intros [w' [E _]]. discriminate.
Qed.

(** When both option sets are built, the log lines are followed by the
    count query and then the list query, on what the hooks left of the two
    sets. *)
Lemma getAndCountRecords_Ok (segmentScope segmentWhere c f : Js.value) :
  countOpts model params world segmentWhere = Ok c ->
  findAllOpts model params world segmentWhere = Ok f ->
  let hooked := searched schema params c f in
  let scope := scoped segmentScope in
  getAndCountRecords model schema params world segmentScope segmentWhere
  = (searchWarnings model schema ++ fst hooked
     ++ [Count scope (fst (snd hooked)); FindAll scope (snd (snd hooked))],
     all (count world scope (fst (snd hooked)))
         (findAll world scope (snd (snd hooked)))).
Proof.
  intros Ec Ef. unfold getAndCountRecords. rewrite Ec, Ef. cbv zeta.
  now destruct (searched schema params c f) as [log opts].
Qed.

(** When they are not, no query is issued. *)
Lemma getAndCountRecords_Err (segmentScope segmentWhere : Js.value)
  (e : Error) :
  getWhere model params world segmentWhere = Err e ->
  getAndCountRecords model schema params world segmentScope segmentWhere
  = (searchWarnings model schema, Err e).
Proof.
  intros E. unfold getAndCountRecords, countOpts. now rewrite E.
Qed.

Lemma getAndCountRecords_no_segment_call (segmentScope segmentWhere : Js.value)
  (e : Event) :
  In e (fst (getAndCountRecords model schema params world
               segmentScope segmentWhere)) ->
  isLog e = true \/ isQuery e = true.
Proof.
  destruct (getWhere model params world segmentWhere) as [w|err] eqn:E.
  - assert (Ec : countOpts model params world segmentWhere
                 = Ok (Js.Obj [("include",
                                getIncludes world
                                  (fieldNamesRequested model params));
                               ("where", w)])).
    { apply countOpts_Ok. now exists w. }
    assert (Ef : findAllOpts model params world segmentWhere
                 = Ok (Js.Obj [("where", w);
                               ("include",
                                getIncludes world
                                  (fieldNamesRequested model params));
                               ("order", getOrder world);
                               ("offset", getSkip world);
                               ("limit", getLimit world)])).
    { apply findAllOpts_Ok. now exists w. }
    rewrite (getAndCountRecords_Ok segmentScope _ _ _ Ec Ef). simpl.
    rewrite !in_app_iff. intros [H | [H | H]].
    + left. pose proof searchWarnings_log as F.
      rewrite Forall_forall in F. now apply F.
    + left. pose proof (searched_log
                          (Js.Obj [("include",
                                    getIncludes world
                                      (fieldNamesRequested model params));
                                   ("where", w)])
                          (Js.Obj [("where", w);
                                   ("include",
                                    getIncludes world
                                      (fieldNamesRequested model params));
                                   ("order", getOrder world);
                                   ("offset", getSkip world);
                                   ("limit", getLimit world)])) as F.
      rewrite Forall_forall in F. now apply F.
    + right. destruct H as [<- | [<- | []]]; reflexivity.
  - rewrite (getAndCountRecords_Err segmentScope _ _ E). simpl.
    intros H. left. pose proof searchWarnings_log as F.
    rewrite Forall_forall in F. now apply F.
Qed.


End Queries.

(** ** The resources getter: segments *)

Section Perform.

Variable model : Model.
Variable schema : RegistrySchema.
Variable params : Params.
Variable world : Collaborators.

Lemma getSegment_found (segments : list Segment) (name : string)
  (segment : Segment) :
  r_segments schema = Some segments ->
  p_segment params = Some name ->
  name <> EmptyString ->
  find (fun s => String.eqb (g_name s) name) segments = Some segment ->
  getSegment schema params = Ok (g_scope segment, g_where segment).
Proof.
  intros Hs Hp Hne Hfind. unfold getSegment. rewrite Hs, Hp.
  apply String.eqb_neq in Hne. rewrite Hne. simpl. now rewrite Hfind.
Qed.

Lemma find_all_false (A : Type) (p : A -> bool) (l : list A) :
  (forall a, In a l -> p a = false) -> find p l = None.
Proof.
  induction l as [|a r IH]; simpl; intros H; [reflexivity|].
  rewrite (H a (or_introl eq_refl)). apply IH. intros; apply H; now right.
Qed.


(** C10.  When the request names a segment, the schema declares segments
    and none of them has that name, [perform] throws a type error, and has
    done nothing before: no function of a segment is called and no query is
    issued. *)
Theorem unknown_segment_throws (segments : list Segment) (name : string) :
  r_segments schema = Some segments ->
  segments <> [] ->
  p_segment params = Some name ->
  name <> EmptyString ->
  (forall segment, In segment segments -> g_name segment <> name) ->
  exists message,
    perform model schema params world = ([], Threw (TypeError message)).
Proof.
  intros Hs _ Hp Hne Hnone. unfold perform, getSegment. rewrite Hs, Hp.
  apply String.eqb_neq in Hne. rewrite Hne. simpl.
  rewrite find_all_false.
  - eexists. reflexivity.
  - intros segment Hin. apply String.eqb_neq. now apply Hnone.
Qed.

End Perform.


Lemma unknown_segment_throws_witness :
  exists message,
    perform Sample.article (Sample.segmented false) Sample.archived
            Sample.world
    = ([], Threw (TypeError message)).
Proof.
  apply (unknown_segment_throws
           Sample.article (Sample.segmented false) Sample.archived
           Sample.world
           [ {| g_name := "published"; g_scope := Js.Undefined;
                g_where := Js.Fun 0 |} ]
           "archived" eq_refl).
  - discriminate.
  - reflexivity.
  - discriminate.
  - intros segment [<- | []]. discriminate.
Defined.

(** ** The resources getter: the two option sets and the records *)

Section Options.

Variable model : Model.
Variable schema : RegistrySchema.
Variable params : Params.
Variable world : Collaborators.

(** C8.  The count options and the list options are built or fail
    together.  When built, they hold the same [where] and the same
    [include]; the count options hold nothing else, and the list options
    hold [order], [offset] and [limit] besides.  Without a search term,
    these are the options of the count query and of the list query. *)
Theorem count_and_list_options (segmentScope segmentWhere : Js.value) :
  ((exists c, countOpts model params world segmentWhere = Ok c)
   <-> (exists f, findAllOpts model params world segmentWhere = Ok f))
  /\ (forall c f,
        countOpts model params world segmentWhere = Ok c ->
        findAllOpts model params world segmentWhere = Ok f ->
        Js.get c "where" = Js.get f "where"
        /\ Js.get c "include" = Js.get f "include"
        /\ properties c = ["include"; "where"]
        /\ properties f = ["where"; "include"; "order"; "offset"; "limit"]
        /\ (present (p_search params) = false ->
            fst (getAndCountRecords model schema params world
                   segmentScope segmentWhere)
            = searchWarnings model schema
              ++ [Count (scoped segmentScope) c;
                  FindAll (scoped segmentScope) f])).
Proof.
  split.
  - split.
    + intros [c Ec]. apply countOpts_Ok in Ec. destruct Ec as [w [Ew _]].
      eexists. apply findAllOpts_Ok. exists w. split; [exact Ew|reflexivity].
    + intros [f Ef]. apply findAllOpts_Ok in Ef. destruct Ef as [w [Ew _]].
      eexists. apply countOpts_Ok. exists w. split; [exact Ew|reflexivity].
  - intros c f Ec Ef.
    pose proof (getAndCountRecords_Ok model schema params world
                  segmentScope segmentWhere c f Ec Ef) as Run.
    apply countOpts_Ok in Ec. destruct Ec as [w [Ew ->]].
    apply findAllOpts_Ok in Ef. destruct Ef as [w' [Ew' ->]].
    assert (w' = w) by congruence. subst w'.
    repeat split.
    intros Hsearch. cbv zeta in Run. rewrite Run.
    now rewrite (searched_absent schema params _ _ Hsearch).
Qed.

Lemma attach_frame (record : Record_) :
  Js.assoc forestCompositePrimary (attach world record)
  = Some (createCompositePrimary world record)
  /\ (forall k,
        k <> forestCompositePrimary ->
        Js.assoc k (attach world record) = Js.assoc k record).
Proof.
  unfold attach. split.
  - now rewrite assoc_set_props, String.eqb_refl.
  - intros k Hk. rewrite assoc_set_props.
    apply String.eqb_neq in Hk. now rewrite Hk.
Qed.

(** The records [perform] returns are those of the list query it issued,
    with the composite key attached when the schema says so. *)
Lemma perform_records (n : Z) (records : list Record_) :
  snd (perform model schema params world) = Fulfilled (n, records) ->
  exists scope options fetched,
    In (FindAll scope options) (fst (perform model schema params world))
    /\ findAll world scope options = Ok fetched
    /\ records = if r_isCompositePrimary schema
                 then map (attach world) fetched else fetched.
Proof.
  unfold perform.
  destruct (getSegment schema params) as [[segmentScope segmentWhere]|e];
    [|discriminate].
  destruct (getSegmentCondition params world segmentWhere)
    as [log [e|e|resolved]]; try discriminate.
  destruct (getWhere model params world resolved) as [w|e] eqn:Ew.
  - assert (Ec : countOpts model params world resolved
                 = Ok (Js.Obj [("include",
                                getIncludes world
                                  (fieldNamesRequested model params));
                               ("where", w)])).
    { apply countOpts_Ok. now exists w. }
    assert (Ef : findAllOpts model params world resolved
                 = Ok (Js.Obj [("where", w);
                               ("include",
                                getIncludes world
                                  (fieldNamesRequested model params));
                               ("order", getOrder world);
                               ("offset", getSkip world);
                               ("limit", getLimit world)])).
    { apply findAllOpts_Ok. now exists w. }
    rewrite (getAndCountRecords_Ok model schema params world
               segmentScope _ _ _ Ec Ef). cbv zeta.
    set (hooked := searched schema params _ _).
    destruct (count world (scoped segmentScope) (fst (snd hooked)))
      as [m|e]; simpl; [|discriminate].
    destruct (findAll world (scoped segmentScope) (snd (snd hooked)))
      as [fetched|e] eqn:Efind; simpl; [|discriminate].
    intros E. injection E as <- <-.
    exists (scoped segmentScope), (snd (snd hooked)), fetched.
    repeat split; trivial.
    rewrite !in_app_iff. right. right. right. simpl. auto.
  - rewrite (getAndCountRecords_Err model schema params world
               segmentScope _ _ Ew). discriminate.
Qed.

(** C9, as amended.  The records [perform] returns are the records its
    list query fetched, in order.  Under a composite-primary schema each
    carries [forestCompositePrimary], holding what the composite-keys
    manager computes from the fetched record, and every other attribute as
    fetched.  Otherwise they are the fetched records unchanged: one carries
    a [forestCompositePrimary] attribute only if it was fetched with it. *)
Theorem composite_primary_attached (n : Z) (records : list Record_) :
  snd (perform model schema params world) = Fulfilled (n, records) ->
  exists scope options fetched,
    In (FindAll scope options) (fst (perform model schema params world))
    /\ findAll world scope options = Ok fetched
    /\ (r_isCompositePrimary schema = true ->
        records = map (attach world) fetched
        /\ forall record,
             Js.assoc forestCompositePrimary (attach world record)
             = Some (createCompositePrimary world record)
             /\ forall k,
                  k <> forestCompositePrimary ->
                  Js.assoc k (attach world record) = Js.assoc k record)
    /\ (r_isCompositePrimary schema = false ->
        records = fetched
        /\ ((forall record,
               In record fetched ->
               Js.assoc forestCompositePrimary record = None) ->
            forall record,
              In record records ->
              Js.assoc forestCompositePrimary record = None)).
Proof.
  intros H. destruct (perform_records n records H)
    as [scope [options [fetched [Hin [Hfind E]]]]].
  exists scope, options, fetched. repeat split; trivial.
  - rewrite E. now destruct (r_isCompositePrimary schema).
  - apply attach_frame.
  - apply attach_frame.
  - rewrite E. now destruct (r_isCompositePrimary schema).
  - intros Hnone record Hr. apply Hnone.
    rewrite E in Hr. now destruct (r_isCompositePrimary schema).
Qed.

End Options.

Lemma count_and_list_options_witness :
  Js.get (Js.Obj [("include", Js.Arr []);
                  ("where", Js.Obj [("$and", Js.Arr [])])]) "where"
  = Js.get (Js.Obj [("where", Js.Obj [("$and", Js.Arr [])]);
                    ("include", Js.Arr []);
                    ("order", Js.Undefined);
                    ("offset", Js.Num 0);
                    ("limit", Js.Num 10)]) "where".
Proof.
  apply (proj2 (count_and_list_options
                  Sample.article (Sample.segmented false) Sample.everything
                  Sample.world Js.Undefined Js.Undefined)
           _ _ eq_refl eq_refl).
Defined.

Lemma composite_primary_attached_witness :
  exists scope options fetched,
    In (FindAll scope options)
       (fst (perform Sample.membership (Sample.segmented true)
               Sample.everything Sample.world))
    /\ findAll Sample.world scope options = Ok fetched
    /\ [ [("userId", Js.Num 1); ("groupId", Js.Num 2);
          (forestCompositePrimary, Js.Arr [Js.Num 1; Js.Num 2])];
         [("userId", Js.Num 3);
          (forestCompositePrimary, Js.Arr [Js.Num 3; Js.Num 4]);
          ("groupId", Js.Num 4)] ]
       = map (attach Sample.world) fetched.
Proof.
  destruct (composite_primary_attached
              Sample.membership (Sample.segmented true) Sample.everything
              Sample.world 2%Z
              [ [("userId", Js.Num 1); ("groupId", Js.Num 2);
                 (forestCompositePrimary, Js.Arr [Js.Num 1; Js.Num 2])];
                [("userId", Js.Num 3);
                 (forestCompositePrimary, Js.Arr [Js.Num 3; Js.Num 4]);
                 ("groupId", Js.Num 4)] ]
              eq_refl)
    as [scope [options [fetched [Hin [Hfind [Composite _]]]]]].
  exists scope, options, fetched. repeat split; trivial.
  now apply Composite.
Defined.

(** C9 as stated fails: under a schema that is not composite-primary, a
    record fetched with a column called [forestCompositePrimary] is
    returned with it. *)
Lemma composite_primary_attribute_fetched :
  r_isCompositePrimary (Sample.segmented false) = false
  /\ snd (perform Sample.article (Sample.segmented false) Sample.everything
            Sample.world)
     = Fulfilled (2%Z, [Sample.row1; Sample.row2])
  /\ Js.assoc forestCompositePrimary Sample.row2 = Some (Js.Str "stored").
Proof.
  repeat split.
Qed.

(** ** Further properties of the schema builder *)

Ltac rule_types :=
  repeat first [apply Forall_nil | apply Forall_cons]; simpl; auto 12.

Section Validations.

Variable toString : Js.value -> string.

Lemma when_types (types : list string) (c : Js.value)
  (rules : list Validation) :
  Forall (fun v => In (v_type v) types) rules ->
  Forall (fun v => In (v_type v) types) (when c rules).
Proof.
  intros H. unfold when. destruct (Js.truthy c); [assumption|constructor].
Qed.

Lemma lenRules_types (len : Js.value) :
  Forall (fun v => In (v_type v) constraintTypes) (lenRules len).
Proof.
  unfold lenRules.
  destruct (Js.truthy _ && Js.truthy _); rule_types.
Qed.

(** The validations of a column the ORM does not generate: the presence
    rule, the rules of the constraints, the pattern rule. *)
Lemma getValidations_shape (column : Column) :
  is_true (c_autoGenerated column) = false ->
  exists constraints,
    getValidations toString column
    = (if is_false (c_allowNull column) then [presentRule] else [])
      ++ constraints
      ++ (if Js.truthy (c_validate column)
          then isRules toString (Js.get (c_validate column) "is") else [])
    /\ Forall (fun v => In (v_type v) constraintTypes) constraints.
Proof.
  intros Hgen. unfold getValidations. rewrite Hgen.
  destruct (Js.truthy (c_validate column)) eqn:Hval; cbn [negb].
  - set (validate := c_validate column).
    exists (when (Js.get validate "min")
              [rule "is greater than" (Js.get validate "min")]
            ++ when (Js.get validate "max")
                 [rule "is less than" (Js.get validate "max")]
            ++ when (Js.get validate "isBefore")
                 [rule "is before" (Js.get validate "isBefore")]
            ++ when (Js.get validate "isAfter")
                 [rule "is after" (Js.get validate "isAfter")]
            ++ when (Js.get validate "len") (lenRules (Js.get validate "len"))
            ++ when (Js.get validate "contains")
                 [rule "contains" (Js.get validate "contains")]).
    split.
    + now rewrite <- !app_assoc.
    + repeat (apply Forall_app; split);
        apply when_types; first [apply lenRules_types | rule_types].
  - exists []. split; [now rewrite !app_nil_r | constructor].
Qed.

Lemma isRules_types (pattern : Js.value) (v : Validation) :
  In v (isRules toString pattern) ->
  v_type v = "is like"
  /\ Js.truthy pattern = true
  /\ Js.isArray pattern = false
  /\ v_value v
     = Some (Js.Str (toString (Js.or (Js.get pattern "args") pattern))).
Proof.
  unfold isRules.
  destruct (Js.truthy pattern) eqn:Ht; simpl; [|contradiction].
  destruct (Js.isArray pattern) eqn:Ha; simpl; [contradiction|].
  intros [<- | []]. auto.
Qed.

(** X1.  Every validation rule of a field has one of the nine rule types
    the builder knows, and a column carries at most ten rules. *)
Theorem validation_types_closed (column : Column) :
  Forall (fun v => In (v_type v) validationTypes)
         (getValidations toString column)
  /\ length (getValidations toString column) <= 10.
Proof.
  destruct (is_true (c_autoGenerated column)) eqn:Hgen.
  - unfold getValidations. rewrite Hgen. split; [constructor | simpl; lia].
  - split.
    + destruct (getValidations_shape column Hgen) as [cs [-> Hcs]].
      repeat (apply Forall_app; split).
      * destruct (is_false (c_allowNull column)); rule_types.
      * eapply Forall_impl; [|exact Hcs]. intros v Hv.
        right. apply in_or_app. now left.
      * destruct (Js.truthy (c_validate column)); [|constructor].
        apply Forall_forall. intros v Hv.
        apply isRules_types in Hv. destruct Hv as [-> _].
        right. apply in_or_app. right. now left.
    + unfold getValidations. rewrite Hgen.
      destruct (Js.truthy (c_validate column)); simpl.
      * rewrite !length_app. unfold when, lenRules, isRules.
        repeat match goal with
               | |- context [if ?b then _ else _] => destruct b
               end; simpl; lia.
      * destruct (is_false (c_allowNull column)); simpl; lia.
Qed.

(** X2.  A field is required exactly when its validations hold the presence
    rule; and both are so exactly for a column declared [allowNull: false]
    that the ORM does not generate, and for no other column. *)
Theorem required_iff_presence_rule (model : Model) (column : Column) :
  (f_isRequired (getSchemaForColumn toString model column) = true
   <-> In presentRule (getValidations toString column))
  /\ (f_isRequired (getSchemaForColumn toString model column) = true
      <-> c_autoGenerated column <> Some true
          /\ c_allowNull column = Some false)
  /\ (In presentRule (getValidations toString column)
      <-> c_autoGenerated column <> Some true
          /\ c_allowNull column = Some false).
Proof.
  assert (Rule : f_isRequired (getSchemaForColumn toString model column)
                 = true
                 <-> In presentRule (getValidations toString column)).
  { simpl. unfold getIsRequired.
    destruct (is_true (c_autoGenerated column)) eqn:Hgen; simpl.
    - unfold getValidations. rewrite Hgen. simpl. split; [discriminate|tauto].
    - destruct (getValidations_shape column Hgen) as [cs [-> Hcs]].
      destruct (is_false (c_allowNull column)); simpl.
      + split; auto.
      + split; [discriminate|]. intros H.
        apply in_app_or in H. destruct H as [H | H].
        * rewrite Forall_forall in Hcs. specialize (Hcs _ H).
          simpl in Hcs. intuition discriminate.
        * destruct (Js.truthy (c_validate column)); [|contradiction].
          apply isRules_types in H. destruct H as [H _]. discriminate H. }
  assert (Flags : f_isRequired (getSchemaForColumn toString model column)
                  = true
                  <-> c_autoGenerated column <> Some true
                      /\ c_allowNull column = Some false).
  { simpl. unfold getIsRequired.
    destruct (c_autoGenerated column) as [[|]|];
      destruct (c_allowNull column) as [[|]|]; simpl;
      split; try discriminate; try (intros [H1 H2]; congruence);
      intros _; split; congruence. }
  split; [exact Rule|]. split; [exact Flags|].
  rewrite <- Rule. exact Flags.
Qed.

(** X3.  The [validations] key of a field schema is never an empty list:
    it is absent when the column has no rule, and holds all the rules of
    the column otherwise. *)
Theorem validations_never_empty (model : Model) (column : Column) :
  f_validations (getSchemaForColumn toString model column) <> Some []
  /\ (f_validations (getSchemaForColumn toString model column) = None
      <-> getValidations toString column = [])
  /\ (forall rules,
        f_validations (getSchemaForColumn toString model column)
        = Some rules ->
        rules = getValidations toString column).
Proof.
  simpl. destruct (getValidations toString column) as [|v vs].
  - repeat split; try discriminate; trivial.
  - repeat split; try discriminate.
    intros rules E. now injection E as <-.
Qed.

(** X4.  A field schema of a column the ORM generates has no validations
    and is not required, whatever the column declares. *)
Theorem autogenerated_column_unconstrained (model : Model) (column : Column) :
  c_autoGenerated column = Some true ->
  f_validations (getSchemaForColumn toString model column) = None
  /\ f_isRequired (getSchemaForColumn toString model column) = false.
Proof.
  intros H. simpl. unfold getValidations, getIsRequired.
  now rewrite H.
Qed.

(** X5.  A pattern rule is there only for a pattern that is not an array,
    and its value is a string: what [toString] makes of the pattern. *)
Theorem pattern_rule_is_string (column : Column) (v : Validation) :
  In v (getValidations toString column) ->
  v_type v = "is like" ->
  let pattern := Js.get (c_validate column) "is" in
  Js.isArray pattern = false
  /\ v_value v
     = Some (Js.Str (toString (Js.or (Js.get pattern "args") pattern))).
Proof.
  intros Hin Hty pattern.
  destruct (is_true (c_autoGenerated column)) eqn:Hgen.
  - unfold getValidations in Hin. now rewrite Hgen in Hin.
  - destruct (getValidations_shape column Hgen) as [cs [E Hcs]].
    rewrite E in Hin.
    apply in_app_or in Hin. destruct Hin as [Hin | Hin].
    + destruct (is_false (c_allowNull column)); [|contradiction].
      destruct Hin as [<- | []]. discriminate Hty.
    + apply in_app_or in Hin. destruct Hin as [Hin | Hin].
      * rewrite Forall_forall in Hcs. specialize (Hcs _ Hin).
        rewrite Hty in Hcs. simpl in Hcs. intuition discriminate.
      * destruct (Js.truthy (c_validate column)); [|contradiction].
        apply isRules_types in Hin. tauto.
Qed.

(** X6.  A length constraint [[lo, hi]] one of whose bounds is falsy (zero)
    is not read as a pair of bounds: the column gets one ['is longer than']
    rule, whose value is the whole pair, and no ['is shorter than'] rule. *)
Theorem falsy_bound_single_rule (column : Column) (lo hi : Js.value) :
  is_true (c_autoGenerated column) = false ->
  let len := Js.get (c_validate column) "len" in
  Js.or (Js.get len "args") len = Js.Arr [lo; hi] ->
  Js.truthy lo = false \/ Js.truthy hi = false ->
  filter isLengthRule (getValidations toString column)
  = [longerThan (Js.Arr [lo; hi]) (Js.get len "msg")].
Proof.
  intros Hgen len E Hfalsy.
  assert (Hlen : Js.truthy len = true).
  { destruct len; try reflexivity; discriminate E. }
  assert (Hval : Js.truthy (c_validate column) = true).
  { subst len. destruct (c_validate column); try discriminate Hlen.
    reflexivity. }
  rewrite (getValidations_length toString column Hgen Hval).
  fold len. unfold when. rewrite Hlen. unfold lenRules. fold len.
  rewrite E. simpl.
  destruct Hfalsy as [-> | ->]; [reflexivity|].
  now rewrite andb_false_r.
Qed.

End Validations.

Section Fields.

Variable toString : Js.value -> string.
Variable model : Model.

(** X7.  A field schema carries [enums] exactly when the column's type is
    the enumerated type itself; an array of an enumerated type has none. *)
Theorem enums_only_for_enum_columns (column : Column) :
  (c_type column = ENUM ->
   f_enums (getSchemaForColumn toString model column)
   = Some (c_values column))
  /\ (c_type column <> ENUM ->
      f_enums (getSchemaForColumn toString model column) = None)
  /\ (forall inner,
        c_type column = ARRAY inner ->
        f_enums (getSchemaForColumn toString model column) = None).
Proof.
  assert (Other : c_type column <> ENUM ->
                  f_enums (getSchemaForColumn toString model column) = None).
  { intros H. simpl.
    destruct (c_type column); simpl; try reflexivity. now destruct H. }
  split; [|split].
  - intros E. simpl. now rewrite E.
  - exact Other.
  - intros inner E. apply Other. rewrite E. discriminate.
Qed.

(** X8.  A field schema carries a default value exactly when the column
    declares one that is neither [null] nor [undefined] and the field is
    not one of the model's primary keys; it is then the declared one. *)
Theorem primary_key_default_suppressed (column : Column) (v : Js.value) :
  f_defaultValue (getSchemaForColumn toString model column) = Some v
  <-> v = c_defaultValue column
      /\ isNil v = false
      /\ ~ In (c_fieldName column) (Js.keys (m_primaryKeys model)).
Proof.
  simpl.
  destruct (isNil (c_defaultValue column)) eqn:Hnil; simpl.
  - split; [discriminate|]. intros [-> [H _]]. congruence.
  - destruct (Js.includes (Js.keys (m_primaryKeys model))
                          (c_fieldName column)) eqn:Hpk; simpl.
    + split; [discriminate|]. intros [_ [_ H]].
      apply includes_In in Hpk. contradiction.
    + split.
      * intros E. injection E as <-. repeat split; trivial.
        intros H. apply includes_In in H. congruence.
      * now intros [-> _].
Qed.

Lemma filter_all (A : Type) (p : A -> bool) (l : list A) :
  (forall a, In a l -> p a = true) -> filter p l = l.
Proof.
  induction l as [|a r IH]; simpl; intros H; [reflexivity|].
  rewrite (H a (or_introl eq_refl)). f_equal. apply IH.
  intros; apply H; now right.
Qed.

(** X9.  The fields of the schema are the column fields that are kept,
    followed by one field for every association of the model, in the order
    of the associations: the exclusion of foreign keys never drops an
    association. *)
Theorem associations_always_kept :
  exists kept,
    s_fields (buildSchema toString model)
    = kept ++ map getSchemaForAssociation (Js.values (m_associations model))
    /\ (forall field, In field kept ->
          In field (columns toString model)
          /\ f_columnName field <> None)
    /\ (forall association,
          In association (Js.values (m_associations model)) ->
          In (getSchemaForAssociation association)
             (s_fields (buildSchema toString model))).
Proof.
  exists (filter (fun field => negb (toRemove model field))
                 (columns toString model)).
  assert (E : s_fields (buildSchema toString model)
              = filter (fun field => negb (toRemove model field))
                       (columns toString model)
                ++ map getSchemaForAssociation
                     (Js.values (m_associations model))).
  { unfold buildSchema; simpl. rewrite filter_app. f_equal.
    apply filter_all. unfold associations. intros field Hin.
    apply in_map_iff in Hin. destruct Hin as [a [<- _]]. reflexivity. }
  split; [exact E|]. split.
  - intros field Hin. apply filter_In in Hin. destruct Hin as [Hin _].
    split; [assumption|].
    unfold columns in Hin. apply in_flat_map in Hin.
    destruct Hin as [column [_ Hin]].
    destruct (Js.truthy (c_references column) && _); [contradiction|].
    destruct Hin as [<- | []]. discriminate.
  - intros association Hin. rewrite E. apply in_or_app. right.
    now apply in_map.
Qed.

(** X10.  Every field of the schema is the field of an association of the
    model, or the field of one of its columns; such a column is a primary
    key, or it neither references another table nor is the foreign key of
    a belongs-to-one association. *)
Theorem schema_fields_sound (field : FieldSchema) :
  In field (s_fields (buildSchema toString model)) ->
  (exists association,
     In association (Js.values (m_associations model))
     /\ field = getSchemaForAssociation association)
  \/ (exists column,
        In column (Js.values (m_attributes model))
        /\ field = getSchemaForColumn toString model column
        /\ (c_primaryKey column = Some true
            \/ (Js.truthy (c_references column) = false
                /\ forall association,
                     In association (Js.values (m_associations model)) ->
                     a_associationType association = BelongsTo ->
                     a_identifierField association <> c_field column))).
Proof.
  intros Hin. unfold buildSchema in Hin; simpl in Hin.
  apply filter_In in Hin. destruct Hin as [Hin Hkeep].
  apply in_app_or in Hin. destruct Hin as [Hin | Hin].
  - right. unfold columns in Hin. apply in_flat_map in Hin.
    destruct Hin as [column [Hc Hin]].
    destruct (Js.truthy (c_references column)) eqn:Href;
      destruct (c_primaryKey column) as [[|]|] eqn:Hpk; simpl in Hin;
      try contradiction; destruct Hin as [<- | []];
      exists column; repeat split; auto.
    + right. split; [assumption|].
      intros association Ha Hty E.
      unfold toRemove in Hkeep. simpl in Hkeep. rewrite Hpk in Hkeep.
      rewrite <- E, (excluded_In model association Ha Hty) in Hkeep.
      discriminate Hkeep.
    + right. split; [assumption|].
      intros association Ha Hty E.
      unfold toRemove in Hkeep. simpl in Hkeep. rewrite Hpk in Hkeep.
      rewrite <- E, (excluded_In model association Ha Hty) in Hkeep.
      discriminate Hkeep.
  - left. unfold associations in Hin. apply in_map_iff in Hin.
    destruct Hin as [association [<- Ha]]. now exists association.
Qed.

(** X11.  The schema lists the primary keys in the order the model declares
    them.  Its [idField] is [undefined] exactly when the model has no
    primary key, and is otherwise the marker or the first primary key; the
    schema is composite-primary exactly when there are two keys or more. *)
Theorem id_field_of_primary_keys :
  s_primaryKeys (buildSchema toString model) = Js.keys (m_primaryKeys model)
  /\ (s_idField (buildSchema toString model) = None
      <-> m_primaryKeys model = [])
  /\ (s_isCompositePrimary (buildSchema toString model) = true
      <-> 2 <= length (m_primaryKeys model))
  /\ (forall name,
        s_idField (buildSchema toString model) = Some name ->
        (name = forestCompositePrimary
         /\ s_isCompositePrimary (buildSchema toString model) = true)
        \/ (s_isCompositePrimary (buildSchema toString model) = false
            /\ nth_error (s_primaryKeys (buildSchema toString model)) 0
               = Some name)).
Proof.
  unfold buildSchema; simpl. unfold Js.keys.
  destruct (m_primaryKeys model) as [|[k c] [|[k' c'] r]]; simpl.
  - repeat split; try discriminate; try lia.
  - repeat split; try discriminate; try lia.
    intros name E. right. now split.
  - repeat split; try discriminate; try lia.
    intros name E. injection E as <-. left. now split.
Qed.

(** X12.  The type of a column is one of the eight tags, or [undefined]
    for a type the builder does not know, inside as many one-element arrays
    as the column's type has array levels. *)
Theorem column_type_tags (t : DataType) :
  getTypeFor t = wrap (rank t) (getTypeFor (base t))
  /\ (getTypeFor (base t) = TUndefined
      <-> exists name, base t = OTHER name)
  /\ (forall tag, getTypeFor (base t) = Tag tag -> In tag typeTags)
  /\ (forall element, getTypeFor (base t) <> Many element).
Proof.
  induction t; simpl;
    try (repeat split; try discriminate; try (intros [n H]; discriminate);
         try (intros tag H; injection H as <-; simpl; auto 10); fail).
  - destruct IHt as [E R]. split; [now rewrite E | exact R].
  - repeat split; try discriminate; eauto.
Qed.

End Fields.

Lemma required_iff_presence_rule_witness :
  In presentRule (getValidations Sample.toString Sample2.status)
  /\ c_autoGenerated Sample2.status <> Some true
  /\ c_allowNull Sample2.status = Some false.
Proof.
  split.
  - apply (proj1 (proj1 (required_iff_presence_rule Sample.toString
                           Sample2.document Sample2.status))).
    reflexivity.
  - apply (proj1 (proj1 (proj2 (required_iff_presence_rule Sample.toString
                                  Sample2.document Sample2.status)))).
    reflexivity.
Defined.

Lemma validations_never_empty_witness :
  [presentRule;
   {| v_type := "is like"; v_value := Some (Js.Str "/^[a-z]+$/");
      v_message := Some Js.Undefined |}]
  = getValidations Sample.toString Sample2.status.
Proof.
  apply (proj2 (proj2 (validations_never_empty Sample.toString
                         Sample2.document Sample2.status))).
  reflexivity.
Defined.

Lemma autogenerated_column_unconstrained_witness :
  f_validations (getSchemaForColumn Sample.toString Sample2.document
                   Sample2.createdAt) = None
  /\ f_isRequired (getSchemaForColumn Sample.toString Sample2.document
                     Sample2.createdAt) = false.
Proof.
  apply autogenerated_column_unconstrained. reflexivity.
Defined.

Lemma pattern_rule_is_string_witness :
  Js.isArray (Js.RegExp "^[a-z]+$") = false
  /\ Some (Js.Str "/^[a-z]+$/")
     = Some (Js.Str (Sample.toString (Js.RegExp "^[a-z]+$"))).
Proof.
  apply (pattern_rule_is_string Sample.toString Sample2.status
           {| v_type := "is like"; v_value := Some (Js.Str "/^[a-z]+$/");
              v_message := Some Js.Undefined |}).
  - simpl. auto.
  - reflexivity.
Defined.

Lemma falsy_bound_single_rule_witness :
  filter isLengthRule
    (getValidations Sample.toString (Sample.named (Sample.bounds 0 10)))
  = [longerThan (Js.Arr [Js.Num 0; Js.Num 10]) Js.Undefined].
Proof.
  apply (falsy_bound_single_rule Sample.toString
           (Sample.named (Sample.bounds 0 10)) (Js.Num 0) (Js.Num 10)
           eq_refl eq_refl (or_introl eq_refl)).
Defined.

Lemma enums_only_for_enum_columns_witness :
  f_enums (getSchemaForColumn Sample.toString Sample2.document Sample2.status)
  = Some (Js.Arr [Js.Str "draft"; Js.Str "live"])
  /\ f_enums (getSchemaForColumn Sample.toString Sample2.document
                (Sample.column "tags" (ARRAY ENUM) None Js.Undefined))
     = None.
Proof.
  split.
  - apply (proj1 (enums_only_for_enum_columns Sample.toString
                    Sample2.document Sample2.status)).
    reflexivity.
  - apply (proj2 (proj2 (enums_only_for_enum_columns Sample.toString
                           Sample2.document
                           (Sample.column "tags" (ARRAY ENUM) None
                              Js.Undefined)))
             ENUM).
    reflexivity.
Defined.

Lemma primary_key_default_suppressed_witness :
  (Js.Str "draft" = c_defaultValue Sample2.status
   /\ isNil (Js.Str "draft") = false
   /\ ~ In (c_fieldName Sample2.status)
          (Js.keys (m_primaryKeys Sample2.document)))
  /\ f_defaultValue (getSchemaForColumn Sample.toString Sample2.document
                       Sample2.uuid) = None.
Proof.
  split.
  - apply (proj1 (primary_key_default_suppressed Sample.toString
                    Sample2.document Sample2.status (Js.Str "draft"))).
    reflexivity.
  - reflexivity.
Defined.

Lemma associations_always_kept_witness :
  In (getSchemaForAssociation Sample.belongsToAuthor)
     (s_fields (buildSchema Sample.toString Sample2.document)).
Proof.
  destruct (associations_always_kept Sample.toString Sample2.document)
    as [kept [_ [_ Kept]]].
  apply Kept. simpl. auto.
Defined.

Lemma schema_fields_sound_witness :
  (exists association,
     In association (Js.values (m_associations Sample.post))
     /\ getSchemaForColumn Sample.toString Sample.post (Sample.plain "title")
        = getSchemaForAssociation association)
  \/ (exists column,
        In column (Js.values (m_attributes Sample.post))
        /\ getSchemaForColumn Sample.toString Sample.post
             (Sample.plain "title")
           = getSchemaForColumn Sample.toString Sample.post column
        /\ (c_primaryKey column = Some true
            \/ (Js.truthy (c_references column) = false
                /\ forall association,
                     In association (Js.values (m_associations Sample.post)) ->
                     a_associationType association = BelongsTo ->
                     a_identifierField association <> c_field column))).
Proof.
  apply (schema_fields_sound Sample.toString Sample.post).
  simpl. auto.
Defined.

Lemma id_field_of_primary_keys_witness :
  (forestCompositePrimary = forestCompositePrimary
   /\ s_isCompositePrimary (buildSchema Sample.toString Sample.membership)
      = true)
  \/ (s_isCompositePrimary (buildSchema Sample.toString Sample.membership)
      = false
      /\ nth_error (s_primaryKeys
                      (buildSchema Sample.toString Sample.membership)) 0
         = Some forestCompositePrimary).
Proof.
  apply (proj2 (proj2 (proj2 (id_field_of_primary_keys Sample.toString
                                Sample.membership)))).
  reflexivity.
Defined.

Lemma column_type_tags_witness :
  In "Number" typeTags.
Proof.
  apply (proj1 (proj2 (proj2 (column_type_tags (ARRAY (ARRAY INTEGER)))))).
  reflexivity.
Defined.

(** The schemas of the sample document and of a model without a key. *)
Example document_schema :
  map f_field (s_fields (buildSchema Sample.toString Sample2.document))
  = ["id"; "status"; "createdAt"; "author"]
  /\ s_idField (buildSchema Sample.toString Sample2.keyless) = None
  /\ getTypeFor (ARRAY (ARRAY INTEGER)) = Many (Many (Tag "Number")).
Proof.
  repeat split.
Qed.

(** ** Further properties of the resources getter *)

(** X13.  When the request names fields for the model, the computed set
    starts with the slot of the primary key, [_.keys(model.primaryKeys)[0]],
    and holds no name twice, whatever the request repeats. *)
Theorem field_names_distinct (model : Model) (params : Params)
  (fields : list (string * string)) (requested : string) :
  p_fields params = Some fields ->
  Js.assoc (m_name model) fields = Some requested ->
  requested <> EmptyString ->
  exists rest,
    fieldNamesRequested model params
    = Some (nth_error (Js.keys (m_primaryKeys model)) 0 :: rest)
    /\ NoDup (nth_error (Js.keys (m_primaryKeys model)) 0 :: rest).
Proof.
  intros Hf Ha Hne.
  set (pk := nth_error (Js.keys (m_primaryKeys model)) 0).
  set (others := map Some (Js.split "," requested)
                 ++ map Some (filterAssociations params
                              ++ sortAssociation params)).
  exists (filter (fun y => negb (option_eqb pk y)) (uniq option_eqb others)).
  split.
  - unfold fieldNamesRequested. rewrite Hf, Ha.
    apply String.eqb_neq in Hne. rewrite Hne. reflexivity.
  - change (NoDup (uniq option_eqb (pk :: others))).
    apply (uniq_NoDup _ _ option_eqb_eq).
Qed.

Lemma field_names_distinct_witness :
  exists rest,
    fieldNamesRequested Sample.post
      (Sample.request (Some [("Post", "id,title,title,id")]) None None
                      None None None)
    = Some (nth_error (Js.keys (m_primaryKeys Sample.post)) 0 :: rest)
    /\ NoDup (nth_error (Js.keys (m_primaryKeys Sample.post)) 0 :: rest).
Proof.
  apply (field_names_distinct Sample.post
           (Sample.request (Some [("Post", "id,title,title,id")]) None None
                           None None None)
           [("Post", "id,title,title,id")] "id,title,title,id"
           eq_refl eq_refl).
  discriminate.
Defined.

Lemma split_length (c : ascii) (s : string) :
  length (Js.split c s) = S (occurrences c s).
Proof.
  induction s as [|a r IH]; simpl; [reflexivity|].
  destruct (Ascii.eqb a c); simpl.
  - now rewrite IH.
  - destruct (Js.split c r) as [|h t] eqn:E.
    + now destruct (split_not_nil c r).
    + simpl in *. lia.
Qed.

(** X14.  The filter conditions number one for each key, and one more for
    each comma in its value string: a key whose value string is empty still
    has its condition. *)
Theorem conditions_per_key (params : Params) (world : Collaborators)
  (filter : list (string * string)) (conditions : list Js.value) :
  filterConditions params world filter = Ok conditions ->
  length conditions
  = list_sum (map (fun kv => S (occurrences "," (snd kv))) filter)
  /\ length filter <= length conditions.
Proof.
  intros E. apply filterConditions_Forall2 in E.
  rewrite <- (Forall2_length E), filterPairs_length.
  clear E. induction filter as [|kv r [IH1 IH2]]; simpl.
  - split; reflexivity.
  - rewrite split_length, IH1. split; [reflexivity|].
    rewrite IH1 in IH2. lia.
Qed.

Lemma conditions_per_key_witness :
  length [Js.Obj [("age", Js.Str "18")]; Js.Obj [("age", Js.Str "")];
          Js.Obj [("name", Js.Str "")]]
  = list_sum (map (fun kv => S (occurrences "," (snd kv)))
                  [("age", "18,"); ("name", "")])
  /\ length [("age", "18,"); ("name", "")]
     <= length [Js.Obj [("age", Js.Str "18")]; Js.Obj [("age", Js.Str "")];
                Js.Obj [("name", Js.Str "")]].
Proof.
  apply (conditions_per_key Sample.everything Sample.world
           [("age", "18,"); ("name", "")]).
  reflexivity.
Defined.

Section FirstError.

Variables A B : Type.
Variable f : A -> Result B.

(** [mapM] stops at the first element [f] throws on. *)
Lemma mapM_Err (l : list A) (e : Error) :
  mapM f l = Err e <->
  exists pre a post bs,
    l = pre ++ a :: post /\ mapM f pre = Ok bs /\ f a = Err e.
Proof.
  revert e. induction l as [|x r IH]; intros e; simpl.
  - split; [discriminate|].
    intros [pre [a [post [bs [E _]]]]]. now destruct pre.
  - assert (Tail : forall pre a post bs',
               x :: r = pre ++ a :: post ->
               mapM f pre = Ok bs' -> f a = Err e ->
               f x = Err e \/ mapM f r = Err e).
    { intros pre a post bs' E Hpre Ha.
      destruct pre as [|y pre]; simpl in E; injection E as Hx Hr.
      - left. now rewrite Hx.
      - right. apply IH. simpl in Hpre. rewrite <- Hx in Hpre.
        destruct (f x); [|discriminate]. simpl in Hpre.
        destruct (mapM f pre) as [bs''|] eqn:Ep; [|discriminate].
        exists pre, a, post, bs''. auto. }
    destruct (f x) as [b|e'] eqn:Ex; simpl.
    + destruct (mapM f r) as [bs|e''] eqn:Er; simpl.
      * split; [discriminate|].
        intros [pre [a [post [bs' [E [Hpre Ha]]]]]].
        destruct (Tail pre a post bs' E Hpre Ha); discriminate.
      * split.
        -- intros E. injection E as ->.
           destruct (proj1 (IH e) eq_refl)
             as [pre [a [post [bs [-> [Hp Ha]]]]]].
           exists (x :: pre), a, post, (b :: bs). simpl.
           rewrite Ex, Hp. auto.
        -- intros [pre [a [post [bs' [E [Hpre Ha]]]]]].
           destruct (Tail pre a post bs' E Hpre Ha) as [H | H];
             [discriminate | exact H].
    + split.
      * intros E. injection E as ->. now exists [], x, r, [].
      * intros [pre [a [post [bs' [E [Hpre Ha]]]]]].
        destruct pre as [|y pre]; simpl in E; injection E as Hx Hr.
        -- congruence.
        -- simpl in Hpre. rewrite <- Hx, Ex in Hpre. discriminate.
Qed.

End FirstError.

Section ParseError.

Variable model : Model.
Variable schema : RegistrySchema.
Variable params : Params.
Variable world : Collaborators.

(** X15.  When the parser throws on a value of the filter, and on no value
    before it, [handleFilterParams] throws that error, whatever follows;
    [getAndCountRecords] then fails with it after the search warnings,
    and issues no query. *)
Theorem filter_error_propagates (filter : list (string * string))
  (pre post : list (string * string)) (kv : string * string) (e : Error) :
  p_filter params = Some filter ->
  filterPairs filter = pre ++ kv :: post ->
  (forall kv', In kv' pre ->
     exists parsed,
       operatorValueParser world (fst kv') (snd kv') (p_timezone params)
       = Ok parsed) ->
  operatorValueParser world (fst kv) (snd kv) (p_timezone params) = Err e ->
  handleFilterParams params world filter = Err e
  /\ forall segmentScope segmentWhere,
       getAndCountRecords model schema params world segmentScope segmentWhere
       = (searchWarnings model schema, Err e)
       /\ Forall (fun event => isQuery event = false)
                 (searchWarnings model schema).
Proof.
  intros Hf Hpairs Hpre Hkv.
  assert (E : filterConditions params world filter = Err e).
  { unfold filterConditions. apply mapM_Err.
    destruct (mapM_total _ _ (condition params world) pre) as [bs Hbs].
    - intros kv' Hin. destruct (Hpre kv' Hin) as [parsed Hp].
      exists (Js.Obj [(fst kv', parsed)]).
      apply condition_elementary. now exists parsed.
    - exists pre, kv, post, bs. repeat split; trivial.
      unfold condition. now rewrite Hkv. }
  assert (H : handleFilterParams params world filter = Err e).
  { unfold handleFilterParams. now rewrite E. }
  split; [exact H|].
  intros segmentScope segmentWhere. split.
  - apply getAndCountRecords_Err.
    unfold getWhere, whereParts. rewrite Hf, H. reflexivity.
  - eapply Forall_impl; [|apply searchWarnings_log].
    intros event Hlog. now destruct event.
Qed.

End ParseError.

Lemma filter_error_propagates_witness :
  handleFilterParams Sample2.malformed Sample2.world [("age", "18,oops,21")]
  = Err (Failure (Js.Str "malformed"))
  /\ forall segmentScope segmentWhere,
       getAndCountRecords Sample.article Sample2.misconfigured
         Sample2.malformed Sample2.world segmentScope segmentWhere
       = (searchWarnings Sample.article Sample2.misconfigured,
          Err (Failure (Js.Str "malformed")))
       /\ Forall (fun event => isQuery event = false)
                 (searchWarnings Sample.article Sample2.misconfigured).
Proof.
  apply (filter_error_propagates Sample.article Sample2.misconfigured
           Sample2.malformed Sample2.world [("age", "18,oops,21")]
           [("age", "18")] [("age", "21")] ("age", "oops")
           (Failure (Js.Str "malformed")) eq_refl eq_refl).
  - intros kv' [<- | []]. now exists (Js.Str "18").
  - reflexivity.
Defined.

Section PerformShape.

Variable model : Model.
Variable schema : RegistrySchema.
Variable params : Params.
Variable world : Collaborators.

(** What [getSegment] leaves in [segmentScope] and [segmentWhere]. *)
Lemma getSegment_Ok (segmentScope segmentWhere : Js.value) :
  getSegment schema params = Ok (segmentScope, segmentWhere) ->
  ((r_segments schema = None \/ present (p_segment params) = false)
   /\ segmentScope = Js.Undefined /\ segmentWhere = Js.Undefined)
  \/ (exists segments name segment,
        r_segments schema = Some segments
        /\ p_segment params = Some name
        /\ name <> EmptyString
        /\ find (fun s => String.eqb (g_name s) name) segments = Some segment
        /\ segmentScope = g_scope segment
        /\ segmentWhere = g_where segment).
Proof.
  unfold getSegment, present.
  destruct (r_segments schema) as [segments|].
  - destruct (p_segment params) as [name|].
    + destruct (String.eqb name "") eqn:Hne; simpl.
      * intros E. injection E as <- <-. left. auto.
      * destruct (find _ segments) as [segment|] eqn:Hfind; [|discriminate].
        intros E. injection E as <- <-. right.
        exists segments, name, segment. repeat split; trivial.
        now apply String.eqb_neq.
    + intros E. injection E as <- <-. left. auto.
  - intros E. left. destruct (p_segment params); injection E as <- <-; auto.
Qed.

Lemma getSegment_absent :
  r_segments schema = None \/ present (p_segment params) = false ->
  getSegment schema params = Ok (Js.Undefined, Js.Undefined).
Proof.
  unfold getSegment, present. intros [H | H].
  - now rewrite H.
  - destruct (r_segments schema); [|reflexivity].
    destruct (p_segment params) as [name|]; [|reflexivity].
    destruct (String.eqb name ""); [reflexivity | discriminate H].
Qed.

Lemma perform_run (segmentScope segmentWhere resolved : Js.value)
  (pre : list Event) :
  getSegment schema params = Ok (segmentScope, segmentWhere) ->
  getSegmentCondition params world segmentWhere = (pre, Fulfilled resolved) ->
  perform model schema params world
  = (pre ++ fst (getAndCountRecords model schema params world
                   segmentScope resolved),
     settle (r_isCompositePrimary schema) world
       (snd (getAndCountRecords model schema params world
               segmentScope resolved))).
Proof.
  intros G C. unfold perform. rewrite G, C.
  now destruct (getAndCountRecords model schema params world
                  segmentScope resolved) as [log [[n records]|e]].
Qed.

(** [getAndCountRecords] fails after the warnings, or logs and then issues
    the count query and the list query. *)
Lemma getAndCountRecords_shape (segmentScope segmentWhere : Js.value) :
  (exists e,
     getAndCountRecords model schema params world segmentScope segmentWhere
     = (searchWarnings model schema, Err e))
  \/ (exists lines c f,
        getAndCountRecords model schema params world
          segmentScope segmentWhere
        = (lines ++ [Count (scoped segmentScope) c;
                     FindAll (scoped segmentScope) f],
           all (count world (scoped segmentScope) c)
               (findAll world (scoped segmentScope) f))
        /\ Forall (fun e => isLog e = true) lines).
Proof.
  destruct (getWhere model params world segmentWhere) as [w|e] eqn:E.
  - right.
    assert (Ec : countOpts model params world segmentWhere
                 = Ok (Js.Obj [("include",
                                getIncludes world
                                  (fieldNamesRequested model params));
                               ("where", w)])).
    { apply countOpts_Ok. now exists w. }
    assert (Ef : findAllOpts model params world segmentWhere
                 = Ok (Js.Obj [("where", w);
                               ("include",
                                getIncludes world
                                  (fieldNamesRequested model params));
                               ("order", getOrder world);
                               ("offset", getSkip world);
                               ("limit", getLimit world)])).
    { apply findAllOpts_Ok. now exists w. }
    pose proof (getAndCountRecords_Ok model schema params world
                  segmentScope segmentWhere _ _ Ec Ef) as Run.
    cbv zeta in Run.
    set (hooked := searched schema params _ _) in Run.
    exists (searchWarnings model schema ++ fst hooked),
           (fst (snd hooked)), (snd (snd hooked)).
    split.
    + rewrite Run. now rewrite <- app_assoc.
    + apply Forall_app. split.
      * apply searchWarnings_log.
      * apply searched_log.
  - left. exists e. now apply getAndCountRecords_Err.
Qed.

Lemma isLog_not_query (l : list Event) :
  Forall (fun e => isLog e = true) l ->
  Forall (fun e => isQuery e = false) l.
Proof.
  apply Forall_impl. intros e H. now destruct e.
Qed.

(** The whole of [perform]: it throws before doing anything; or calls the
    segment's function, which fails; or runs [getAndCountRecords], after
    that call if there is one, and fails without a query or issues the two
    queries last. *)
Lemma perform_shape :
  (exists e,
     getSegment schema params = Err e
     /\ perform model schema params world = ([], Threw e))
  \/ (exists segmentScope f e,
        getSegment schema params = Ok (segmentScope, Js.Fun f)
        /\ ((callWhere world f params = Threw e
             /\ perform model schema params world
                = ([SegmentWhere f params], Threw e))
            \/ (callWhere world f params = Rejected e
                /\ perform model schema params world
                   = ([SegmentWhere f params], Rejected e))))
  \/ (exists segmentScope segmentWhere pre,
        getSegment schema params = Ok (segmentScope, segmentWhere)
        /\ (pre = []
            \/ exists f, segmentWhere = Js.Fun f
                         /\ pre = [SegmentWhere f params])
        /\ ((exists e,
               perform model schema params world
               = (pre ++ searchWarnings model schema, Rejected e))
            \/ (exists lines c f,
                  perform model schema params world
                  = (pre ++ lines
                     ++ [Count (scoped segmentScope) c;
                         FindAll (scoped segmentScope) f],
                     settle (r_isCompositePrimary schema) world
                       (all (count world (scoped segmentScope) c)
                            (findAll world (scoped segmentScope) f)))
                  /\ Forall (fun e => isLog e = true) lines))).
Proof.
  destruct (getSegment schema params) as [[segmentScope segmentWhere]|e]
    eqn:G.
  - assert (Run : forall pre resolved,
               getSegmentCondition params world segmentWhere
               = (pre, Fulfilled resolved) ->
               (exists e,
                  perform model schema params world
                  = (pre ++ searchWarnings model schema, Rejected e))
               \/ (exists lines c f,
                     perform model schema params world
                     = (pre ++ lines
                        ++ [Count (scoped segmentScope) c;
                            FindAll (scoped segmentScope) f],
                        settle (r_isCompositePrimary schema) world
                          (all (count world (scoped segmentScope) c)
                               (findAll world (scoped segmentScope) f)))
                     /\ Forall (fun e => isLog e = true) lines)).
    { intros pre resolved C.
      rewrite (perform_run segmentScope segmentWhere resolved pre G C).
      destruct (getAndCountRecords_shape segmentScope resolved)
        as [[e ->] | [lines [c [f [-> Hlines]]]]].
      - left. now exists e.
      - right. now exists lines, c, f. }
    destruct segmentWhere;
      try (right; right; eexists _, _, []; split; [reflexivity|];
           split; [now left|]; apply (Run [] _ eq_refl)).
    destruct (callWhere world id params) as [e|e|resolved] eqn:C.
    + right; left. exists segmentScope, id, e. split; [reflexivity|].
      left. split; [assumption|].
      unfold perform. rewrite G. simpl. now rewrite C.
    + right; left. exists segmentScope, id, e. split; [reflexivity|].
      right. split; [assumption|].
      unfold perform. rewrite G. simpl. now rewrite C.
    + right; right. exists segmentScope, (Js.Fun id), [SegmentWhere id params].
      split; [reflexivity|]. split; [right; now exists id|].
      apply (Run _ resolved). simpl. now rewrite C.
  - left. exists e. split; [reflexivity|].
    unfold perform. now rewrite G.
Qed.

End PerformShape.

Section PerformMore.

Variable model : Model.
Variable schema : RegistrySchema.
Variable params : Params.
Variable world : Collaborators.

(** X16.  [perform] issues no query at all, and is then not fulfilled; or
    it issues exactly one count query and one list query, the count query
    first, under the same scope, as the last two things it does. *)
Theorem queries_once_in_order :
  (Forall (fun e => isQuery e = false)
          (fst (perform model schema params world))
   /\ forall r, snd (perform model schema params world) <> Fulfilled r)
  \/ (exists lines scope c f,
        fst (perform model schema params world)
        = lines ++ [Count scope c; FindAll scope f]
        /\ Forall (fun e => isQuery e = false) lines).
Proof.
  destruct (perform_shape model schema params world)
    as [[e [_ ->]]
       | [[scope [f [e [_ [[_ ->] | [_ ->]]]]]]
         | [scope [w [pre [_ [Hpre [[e ->] | [lines [c [f [-> Hl]]]]]]]]]]]];
    simpl.
  - left. split; [constructor | discriminate].
  - left. split; [repeat constructor | discriminate].
  - left. split; [repeat constructor | discriminate].
  - left. split; [|discriminate].
    apply Forall_app. split.
    + destruct Hpre as [-> | [f [_ ->]]]; repeat constructor.
    + apply isLog_not_query, searchWarnings_log.
  - right. exists (pre ++ lines), (scoped scope), c, f.
    split; [now rewrite app_assoc|].
    apply Forall_app. split.
    + destruct Hpre as [-> | [f' [_ ->]]]; repeat constructor.
    + now apply isLog_not_query.
Qed.

(** X17.  [perform] is fulfilled only after both queries: the count it
    returns is the count query's, and it returns as many records as the
    list query fetched. *)
Theorem fulfilled_after_both_queries (n : Z) (records : list Record_) :
  snd (perform model schema params world) = Fulfilled (n, records) ->
  exists lines scope c f fetched,
    fst (perform model schema params world)
    = lines ++ [Count scope c; FindAll scope f]
    /\ count world scope c = Ok n
    /\ findAll world scope f = Ok fetched
    /\ length records = length fetched.
Proof.
  destruct (perform_shape model schema params world)
    as [[e [_ ->]]
       | [[scope [f [e [_ [[_ ->] | [_ ->]]]]]]
         | [scope [w [pre [_ [Hpre [[e ->] | [lines [c [f [-> Hl]]]]]]]]]]]];
    simpl; try discriminate.
  destruct (count world (scoped scope) c) as [m|e] eqn:Ec; [|discriminate].
  destruct (findAll world (scoped scope) f) as [fetched|e] eqn:Ef;
    simpl; [|discriminate].
  intros E. injection E as <- <-.
  exists (pre ++ lines), (scoped scope), c, f, fetched.
  repeat split; trivial.
  - now rewrite app_assoc.
  - destruct (r_isCompositePrimary schema); [apply length_map | reflexivity].
Qed.

(** For a function that returns a bluebird promise, [performCalled] is
    [perform]. *)
Lemma performCalled_bluebird (called : nat -> Params -> Called) :
  (forall f p, called f p = Bluebird (callWhere world f p)) ->
  performCalled model schema params world called
  = perform model schema params world.
Proof.
  intros H. unfold performCalled, perform.
  destruct (getSegment schema params) as [[segmentScope segmentWhere]|e];
    [|reflexivity].
  destruct segmentWhere; simpl; try rewrite H;
    try (destruct (callWhere world id params) as [e|e|resolved];
         try reflexivity);
    match goal with
    | |- context [getAndCountRecords ?m ?s ?p ?w ?scope ?condition] =>
        now destruct (getAndCountRecords m s p w scope condition)
          as [log [[count records]|error]]
    end.
Qed.

(** X18.  Whatever the segment's function returns, [perform] throws
    synchronously only when the lookup of the segment fails, before
    anything else; when the function itself throws; when what it returns
    has no [then]; or when it returns a thenable that is not bluebird's,
    so that [spread] is missing.  The last two throw a type error.  Only in
    the last case, and only if the thenable is fulfilled, are queries
    issued, after the throw; in every other case the call of the function
    is all that was done. *)
Theorem synchronous_throw_sources (called : nat -> Params -> Called)
  (e : Error) :
  snd (performCalled model schema params world called) = Threw e ->
  (getSegment schema params = Err e
   /\ fst (performCalled model schema params world called) = [])
  \/ (exists segmentScope f,
        getSegment schema params = Ok (segmentScope, Js.Fun f)
        /\ ((called f params = Bluebird (Threw e)
             /\ fst (performCalled model schema params world called)
                = [SegmentWhere f params])
            \/ (called f params = NotThenable
                /\ (exists message, e = TypeError message)
                /\ fst (performCalled model schema params world called)
                   = [SegmentWhere f params])
            \/ (exists error,
                  called f params = Thenable (Err error)
                  /\ (exists message, e = TypeError message)
                  /\ fst (performCalled model schema params world called)
                     = [SegmentWhere f params])
            \/ (exists resolved,
                  called f params = Thenable (Ok resolved)
                  /\ (exists message, e = TypeError message)
                  /\ fst (performCalled model schema params world called)
                     = SegmentWhere f params
                       :: fst (getAndCountRecords model schema params world
                                 segmentScope resolved)))).
Proof.
  unfold performCalled.
  destruct (getSegment schema params) as [[segmentScope segmentWhere]|e'].
  - destruct segmentWhere;
      try match goal with
          | |- context [getAndCountRecords ?m ?s ?p ?w ?scope ?condition] =>
              destruct (getAndCountRecords m s p w scope condition)
                as [log [[count records]|error]];
              simpl; discriminate
          end.
    destruct (called id params) as [[e'|e'|resolved]|[resolved|e']|] eqn:C;
      simpl.
    + intros E. injection E as <-. right. exists segmentScope, id.
      split; [reflexivity|]. left. split; [assumption | reflexivity].
    + discriminate.
    + destruct (getAndCountRecords model schema params world
                  segmentScope resolved) as [log [[n records]|e']];
        simpl; discriminate.
    + intros E. injection E as <-. right. exists segmentScope, id.
      split; [reflexivity|]. right; right; right.
      exists resolved. split; [assumption|].
      split; [eexists; reflexivity | reflexivity].
    + intros E. injection E as <-. right. exists segmentScope, id.
      split; [reflexivity|]. right; right; left.
      exists e'. split; [assumption|].
      split; [eexists; reflexivity | reflexivity].
    + intros E. injection E as <-. right. exists segmentScope, id.
      split; [reflexivity|]. right; left. split; [assumption|].
      split; [eexists; reflexivity | reflexivity].
  - simpl. intros E. injection E as <-. now left.
Qed.

(** X19.  When the function of the requested segment throws, or returns a
    bluebird promise that is rejected, that error is the outcome of
    [perform], thrown or rejected; when it returns a rejected thenable that
    is not bluebird's, or a value without [then], [perform] throws a type
    error instead.  In all four cases nothing is done after the call: no
    query is issued. *)
Theorem segment_function_failure (called : nat -> Params -> Called)
  (segments : list Segment) (name : string)
  (segment : Segment) (f : nat) (e : Error) :
  r_segments schema = Some segments ->
  p_segment params = Some name ->
  name <> EmptyString ->
  find (fun s => String.eqb (g_name s) name) segments = Some segment ->
  g_where segment = Js.Fun f ->
  (called f params = Bluebird (Rejected e) ->
   performCalled model schema params world called
   = ([SegmentWhere f params], Rejected e))
  /\ (called f params = Bluebird (Threw e) ->
      performCalled model schema params world called
      = ([SegmentWhere f params], Threw e))
  /\ (called f params = Thenable (Err e) ->
      exists message,
        performCalled model schema params world called
        = ([SegmentWhere f params], Threw (TypeError message)))
  /\ (called f params = NotThenable ->
      exists message,
        performCalled model schema params world called
        = ([SegmentWhere f params], Threw (TypeError message))).
Proof.
  intros Hs Hp Hne Hfind Hfun.
  pose proof (getSegment_found schema params segments name segment
                Hs Hp Hne Hfind) as G.
  repeat split; intros C; unfold performCalled; rewrite G, Hfun, C;
    try reflexivity; eexists; reflexivity.
Qed.

(** X20.  When the schema declares no segments, or the request names none,
    [perform] is [getAndCountRecords] without a scope and without a
    condition: a segment named in the request is ignored when the schema
    declares none, no function is called and both queries are unscoped. *)
Theorem no_segment_unscoped :
  r_segments schema = None \/ present (p_segment params) = false ->
  perform model schema params world
  = (fst (getAndCountRecords model schema params world
            Js.Undefined Js.Undefined),
     settle (r_isCompositePrimary schema) world
       (snd (getAndCountRecords model schema params world
               Js.Undefined Js.Undefined)))
  /\ forall event,
       In event (fst (perform model schema params world)) ->
       (isLog event = true \/ isQuery event = true)
       /\ (isQuery event = true -> scopeOf event = Some None).
Proof.
  intros H.
  pose proof (perform_run model schema params world
                Js.Undefined Js.Undefined Js.Undefined []
                (getSegment_absent schema params H) eq_refl) as Run.
  simpl in Run. split; [exact Run|].
  rewrite Run. simpl. intros event Hin.
  destruct (getAndCountRecords_shape model schema params world
              Js.Undefined Js.Undefined)
    as [[e E] | [lines [c [f [E Hl]]]]]; rewrite E in Hin; simpl in Hin.
  - pose proof (searchWarnings_log model schema) as F.
    rewrite Forall_forall in F. specialize (F _ Hin).
    split; [now left|]. destruct event; discriminate.
  - apply in_app_or in Hin. destruct Hin as [Hin | [<- | [<- | []]]].
    + rewrite Forall_forall in Hl. specialize (Hl _ Hin).
      split; [now left|]. destruct event; discriminate.
    + split; [now right | reflexivity].
    + split; [now right | reflexivity].
Qed.

(** X21.  When the requested segment is found, every query [perform] issues
    runs under the segment's scope when that scope is truthy, and unscoped
    when the segment has none. *)
Theorem segment_scope_applied (segments : list Segment) (name : string)
  (segment : Segment) (event : Event) :
  r_segments schema = Some segments ->
  p_segment params = Some name ->
  name <> EmptyString ->
  find (fun s => String.eqb (g_name s) name) segments = Some segment ->
  In event (fst (perform model schema params world)) ->
  isQuery event = true ->
  scopeOf event
  = Some (if Js.truthy (g_scope segment)
          then Some (g_scope segment) else None).
Proof.
  intros Hs Hp Hne Hfind Hin Hq.
  pose proof (getSegment_found schema params segments name segment
                Hs Hp Hne Hfind) as G.
  destruct (perform_shape model schema params world)
    as [[e [G' _]]
       | [[scope [f [e [_ [[_ E] | [_ E]]]]]]
         | [scope [w [pre [G' [Hpre [[e E] | [lines [c [f [E Hl]]]]]]]]]]]].
  - congruence.
  - rewrite E in Hin. destruct Hin as [<- | []]. discriminate Hq.
  - rewrite E in Hin. destruct Hin as [<- | []]. discriminate Hq.
  - rewrite E in Hin. simpl in Hin. exfalso.
    apply in_app_or in Hin. destruct Hin as [Hin | Hin].
    + destruct Hpre as [-> | [f [_ ->]]]; [contradiction|].
      destruct Hin as [<- | []]. discriminate Hq.
    + pose proof (searchWarnings_log model schema) as F.
      rewrite Forall_forall in F. specialize (F _ Hin).
      destruct event; discriminate.
  - rewrite G in G'. injection G' as <- <-.
    rewrite E in Hin. simpl in Hin.
    apply in_app_or in Hin. destruct Hin as [Hin | Hin].
    + exfalso. destruct Hpre as [-> | [f' [_ ->]]]; [contradiction|].
      destruct Hin as [<- | []]. discriminate Hq.
    + apply in_app_or in Hin. destruct Hin as [Hin | [<- | [<- | []]]].
      * exfalso. rewrite Forall_forall in Hl. specialize (Hl _ Hin).
        destruct event; discriminate.
      * reflexivity.
      * reflexivity.
Qed.

(** X22.  [perform] calls a function only if it is the condition of the
    segment the request names, only on the request's parameters, and only
    as the first thing it does. *)
Theorem segment_function_called_only (f : nat) (p : Params) :
  In (SegmentWhere f p) (fst (perform model schema params world)) ->
  p = params
  /\ (exists rest,
        fst (perform model schema params world)
        = SegmentWhere f params :: rest
        /\ forall g q, ~ In (SegmentWhere g q) rest)
  /\ exists segments name segment,
       r_segments schema = Some segments
       /\ p_segment params = Some name
       /\ find (fun s => String.eqb (g_name s) name) segments = Some segment
       /\ g_where segment = Js.Fun f.
Proof.
  intros Hin.
  assert (Found : forall scope g,
             getSegment schema params = Ok (scope, Js.Fun g) ->
             exists segments name segment,
               r_segments schema = Some segments
               /\ p_segment params = Some name
               /\ find (fun s => String.eqb (g_name s) name) segments
                  = Some segment
               /\ g_where segment = Js.Fun g).
  { intros scope g G. apply getSegment_Ok in G.
    destruct G as [[_ [_ E]] | [segments [name [segment [Hs [Hp [_ [Hf [_ E]]]]]]]]].
    - discriminate.
    - exists segments, name, segment. auto. }
  assert (Quiet : forall l g q,
             Forall (fun e => isLog e = true) l -> ~ In (SegmentWhere g q) l).
  { intros l g q F H. rewrite Forall_forall in F.
    specialize (F _ H). discriminate. }
  destruct (perform_shape model schema params world)
    as [[e [_ E]]
       | [[scope [g [e [G [[_ E] | [_ E]]]]]]
         | [scope [w [pre [G [Hpre [[e E] | [lines [c [f' [E Hl]]]]]]]]]]]];
    rewrite E in Hin |- *; simpl in Hin |- *.
  - contradiction.
  - destruct Hin as [H | []]. injection H as <- <-.
    split; [reflexivity|]. split; [|now apply Found with scope].
    exists []. split; [reflexivity | auto].
  - destruct Hin as [H | []]. injection H as <- <-.
    split; [reflexivity|]. split; [|now apply Found with scope].
    exists []. split; [reflexivity | auto].
  - destruct Hpre as [-> | [g [-> ->]]]; simpl in Hin.
    + exfalso. now apply (Quiet _ f p (searchWarnings_log model schema)).
    + destruct Hin as [H | Hin].
      * injection H as <- <-.
        split; [reflexivity|]. split; [|now apply Found with scope].
        eexists. split; [reflexivity|].
        intros g' q. apply Quiet, searchWarnings_log.
      * exfalso. now apply (Quiet _ f p (searchWarnings_log model schema)).
  - assert (Tail : forall g q,
               ~ In (SegmentWhere g q)
                    (lines ++ [Count (scoped scope) c;
                               FindAll (scoped scope) f'])).
    { intros g q H. apply in_app_or in H.
      destruct H as [H | [H | [H | []]]]; try discriminate.
      now apply (Quiet lines g q). }
    destruct Hpre as [-> | [g [-> ->]]]; simpl in Hin.
    + exfalso. now apply (Tail f p).
    + destruct Hin as [H | Hin].
      * injection H as <- <-.
        split; [reflexivity|]. split; [|now apply Found with scope].
        eexists. split; [reflexivity | exact Tail].
      * exfalso. now apply (Tail f p).
Qed.

(** X23.  The where-clause is one object whose one key [$and] holds a
    list: one element for the search term if there is one, then one for
    the filter if the request has one, then one for the segment's condition
    if it is truthy, so at most three, and none for a bare request. *)
Theorem where_clause_parts (segmentWhere where_ : Js.value) :
  getWhere model params world segmentWhere = Ok where_ ->
  exists parts,
    where_ = Js.Obj [("$and", Js.Arr parts)]
    /\ length parts
       = b2n (present (p_search params))
         + b2n (match p_filter params with Some _ => true | None => false end)
         + b2n (Js.truthy segmentWhere)
    /\ (present (p_search params) = true ->
        hd_error parts
        = Some (searchBuilder world (fieldNamesRequested model params)))
    /\ (Js.truthy segmentWhere = true -> last parts Js.Undefined = segmentWhere).
Proof.
  unfold getWhere, whereParts. cbv zeta.
  destruct (p_filter params) as [filter|]; simpl.
  - destruct (handleFilterParams params world filter) as [w|e]; simpl;
      [|discriminate].
    intros E. injection E as <-. eexists. split; [reflexivity|].
    destruct (present (p_search params)), (Js.truthy segmentWhere);
      simpl; repeat split; trivial; discriminate.
  - intros E. injection E as <-. eexists. split; [reflexivity|].
    destruct (present (p_search params)), (Js.truthy segmentWhere);
      simpl; repeat split; trivial; discriminate.
Qed.

End PerformMore.

(** ** Further properties: hooks, records and search fields *)

Lemma applyHooks_cons (field : RegistryField) (rest : list RegistryField)
  (search : string) (options : Js.value) :
  applyHooks (field :: rest) search options
  = applyHooks rest search
      match r_search field with
      | Some hook => fst (hook options search)
      | None => options
      end.
Proof.
  reflexivity.
Qed.

(** X24.  The count options go through the hook of every field, in the
    order of the fields, whatever the hooks throw; the hooks log at most
    one error each; and when none of them throws they log nothing and the
    list options go through every hook as well. *)
Theorem search_hooks_compose (fields : list RegistryField) (search : string)
  (c f : Js.value) :
  fst (snd (searchHooks fields search c f)) = applyHooks fields search c
  /\ length (fst (searchHooks fields search c f))
     <= length (filter hasHook fields)
  /\ ((forall field hook,
         In field fields -> r_search field = Some hook -> quiet hook) ->
      searchHooks fields search c f
      = ([], (applyHooks fields search c, applyHooks fields search f))).
Proof.
  revert c f. induction fields as [|field rest IH]; intros c f.
  - simpl. repeat split; trivial.
  - rewrite !applyHooks_cons. simpl. unfold hasHook at 1.
    destruct (r_search field) as [hook|] eqn:Hh.
    + destruct (hook c search) as [c' thrown] eqn:Hc. simpl.
      destruct thrown as [error|].
      * destruct (IH c' f) as [I1 [I2 _]].
        destruct (searchHooks rest search c' f) as [log opts].
        simpl in *. repeat split; trivial; [lia|].
        intros Q. specialize (Q field hook (or_introl eq_refl) Hh c search).
        rewrite Hc in Q. discriminate Q.
      * destruct (hook f search) as [f' thrown'] eqn:Hf.
        destruct (IH c' f') as [I1 [I2 I3]].
        destruct (searchHooks rest search c' f') as [log opts] eqn:Hs.
        destruct thrown' as [error|]; simpl in *;
          repeat split; trivial; try lia.
        -- intros Q. specialize (Q field hook (or_introl eq_refl) Hh f search).
           rewrite Hf in Q. discriminate Q.
        -- intros Q. apply I3. intros field' hook' Hin. apply Q. now right.
    + destruct (IH c f) as [I1 [I2 I3]]. repeat split; trivial.
      intros Q. apply I3. intros field' hook' Hin. apply Q. now right.
Qed.

Lemma search_hooks_compose_witness :
  searchHooks
    [ {| r_field := "title"; r_search := None |};
      {| r_field := "fullName"; r_search := Some Sample2.mark |} ]
    "ann" (Js.Obj []) (Js.Obj [("limit", Js.Num 10)])
  = ([], (Js.Obj [("searched", Js.Str "ann")],
          Js.Obj [("limit", Js.Num 10); ("searched", Js.Str "ann")])).
Proof.
  apply (proj2 (proj2 (search_hooks_compose
                         [ {| r_field := "title"; r_search := None |};
                           {| r_field := "fullName";
                              r_search := Some Sample2.mark |} ]
                         "ann" (Js.Obj [])
                         (Js.Obj [("limit", Js.Num 10)])))).
  intros field hook [<- | [<- | []]] E; [discriminate|].
  injection E as <-. intros options search. reflexivity.
Defined.

(** A hook that throws on the count options is logged, and the list options
    are not given to it. *)
Example broken_hook_logged :
  searchHooks (r_fields Sample2.smart) "ann" (Js.Obj []) (Js.Obj [])
  = ([LogError "Cannot search properly on Smart Field initials"
               (Failure (Js.Str "boom"))],
     (Js.Obj [("searched", Js.Str "ann")],
      Js.Obj [("searched", Js.Str "ann")])).
Proof.
  reflexivity.
Qed.

Lemma set_props_keys (k : string) (x : Js.value)
  (props : list (string * Js.value)) :
  Js.keys (Js.set_props k x props)
  = if Js.includes (Js.keys props) k then Js.keys props
    else Js.keys props ++ [k].
Proof.
  unfold Js.includes, Js.keys.
  induction props as [|[j y] r IH]; simpl; [reflexivity|].
  destruct (String.eqb k j) eqn:E; simpl.
  - apply String.eqb_eq in E. now subst.
  - rewrite IH. now destruct (existsb (String.eqb k) (map fst r)).
Qed.

Section Attach.

Variable world : Collaborators.

(** X25.  Attaching the composite key keeps the attributes of the record in
    their order: an attribute [forestCompositePrimary] that is there keeps
    its place, and otherwise the new one goes last; a record whose
    attribute names are distinct keeps them distinct. *)
Theorem attach_keys (record : Record_) :
  Js.keys (attach world record)
  = (if Js.includes (Js.keys record) forestCompositePrimary
     then Js.keys record
     else Js.keys record ++ [forestCompositePrimary])
  /\ (NoDup (Js.keys record) -> NoDup (Js.keys (attach world record)))
  /\ Js.assoc forestCompositePrimary (attach world (attach world record))
     = Some (createCompositePrimary world (attach world record)).
Proof.
  unfold attach at 1 2. rewrite set_props_keys. split; [reflexivity|]. split.
  - intros Hnd.
    destruct (Js.includes (Js.keys record) forestCompositePrimary) eqn:E;
      [assumption|].
    apply NoDup_app; [assumption | repeat constructor; auto |].
    intros k Hk [<- | []].
    apply includes_In in Hk. congruence.
  - unfold attach at 1. now rewrite assoc_set_props, String.eqb_refl.
Qed.

End Attach.

Lemma attach_keys_witness :
  NoDup (Js.keys (attach Sample.world Sample.row2)).
Proof.
  apply (proj1 (proj2 (attach_keys Sample.world Sample.row2))).
  simpl. repeat constructor; simpl; intuition discriminate.
Defined.

Lemma uniq_nil (A : Type) (eqb : A -> A -> bool) (l : list A) :
  uniq eqb l = [] <-> l = [].
Proof.
  destruct l; simpl; split; trivial; discriminate.
Qed.

Lemma filter_nil (A : Type) (p : A -> bool) (l : list A) :
  filter p l = [] <-> forall a, In a l -> p a = false.
Proof.
  induction l as [|a r IH]; simpl.
  - split; trivial. contradiction.
  - destruct (p a) eqn:E.
    + split; [discriminate|]. intros H.
      rewrite (H a (or_introl eq_refl)) in E. discriminate.
    + rewrite IH. split.
      * intros H b [<- | Hb]; auto.
      * intros H b Hb. apply H. now right.
Qed.

Lemma xor_nil (a b : list string) :
  xor a b = [] <->
  (forall x, In x a -> In x b) /\ (forall x, In x b -> In x a).
Proof.
  unfold xor. rewrite uniq_nil. split.
  - intros H. apply app_eq_nil in H. destruct H as [Ha Hb].
    rewrite filter_nil in Ha, Hb. split; intros x Hx.
    + apply includes_In. specialize (Ha x Hx).
      now destruct (Js.includes b x).
    + apply includes_In. specialize (Hb x Hx).
      now destruct (Js.includes a x).
  - intros [Hab Hba].
    assert (Ha : filter (fun x => negb (Js.includes b x)) a = []).
    { apply filter_nil. intros x Hx.
      rewrite (proj2 (includes_In b x) (Hab x Hx)). reflexivity. }
    assert (Hb : filter (fun x => negb (Js.includes a x)) b = []).
    { apply filter_nil. intros x Hx.
      rewrite (proj2 (includes_In a x) (Hba x Hx)). reflexivity. }
    now rewrite Ha, Hb.
Qed.

Lemma picked_In (A : Type) (o : list (string * A)) (names : list string)
  (x : string) :
  In x (picked o names)
  <-> In x names /\ (In x (Js.keys o) \/ In x Js.inherited).
Proof.
  unfold picked.
  rewrite (uniq_In _ String.eqb String.eqb_eq), filter_In, orb_true_iff.
  rewrite !includes_In. tauto.
Qed.

Section SearchFields.

Variable model : Model.
Variable schema : RegistrySchema.

(** X26.  [selectSearchFields] logs nothing exactly when the declared
    search fields fit the schema: every declared name without a dot is the
    name of a field of the schema, no field of the schema is declared under
    a name with a dot, and every declared [association.field] names an
    association of the model or a property every object inherits, which
    [_.pick] finds as well.  What it logs otherwise are warnings. *)
Theorem search_warnings_exact (declared : list string) :
  (selectSearchFields model schema declared = [] <->
   (forall name,
      In name declared -> Js.contains "." name = false ->
      In name (map r_field (r_fields schema)))
   /\ (forall field,
         In field (r_fields schema) -> In (r_field field) declared ->
         Js.contains "." (r_field field) = false)
   /\ (forall name,
         In name declared -> Js.contains "." name = true ->
         In (Js.before "." name) (Js.keys (m_associations model))
         \/ In (Js.before "." name) Js.inherited))
  /\ (forall event,
        In event (selectSearchFields model schema declared) ->
        exists message, event = Warn message)
  /\ length (selectSearchFields model schema declared) <= 2.
Proof.
  split; [|split].
  - unfold selectSearchFields. cbv zeta.
    set (simple := filter (fun field => negb (Js.contains "." field))
                          declared).
    set (names := map r_field
                      (filter (fun field =>
                                 Js.includes declared (r_field field))
                              (r_fields schema))).
    set (joined := map (Js.before ".") (filter (Js.contains ".") declared)).
    set (found := picked (m_associations model) joined).
    assert (Simple : forall x,
               In x simple <-> In x declared /\ Js.contains "." x = false).
    { intros x. unfold simple. rewrite filter_In.
      destruct (Js.contains "." x); simpl; intuition discriminate. }
    assert (Names : forall x,
               In x names <->
               exists field, In field (r_fields schema)
                             /\ r_field field = x /\ In x declared).
    { intros x. unfold names. rewrite in_map_iff. split.
      - intros [field [<- H]]. apply filter_In in H.
        destruct H as [H I]. apply includes_In in I. now exists field.
      - intros [field [H [<- I]]]. exists field. split; [reflexivity|].
        apply filter_In. split; [assumption|]. now apply includes_In. }
    assert (Joined : forall x,
               In x joined <->
               exists name, In name declared
                            /\ Js.contains "." name = true
                            /\ Js.before "." name = x).
    { intros x. unfold joined. rewrite in_map_iff. split.
      - intros [name [<- H]]. apply filter_In in H. now exists name.
      - intros [name [H [I <-]]]. exists name. split; [reflexivity|].
        now apply filter_In. }
    assert (A : xor simple names = [] <->
                (forall name,
                   In name declared -> Js.contains "." name = false ->
                   In name (map r_field (r_fields schema)))
                /\ (forall field,
                      In field (r_fields schema) ->
                      In (r_field field) declared ->
                      Js.contains "." (r_field field) = false)).
    { rewrite xor_nil. split.
      - intros [H1 H2]. split.
        + intros name Hd Hc.
          destruct (proj1 (Names name) (H1 name (proj2 (Simple name)
                                                   (conj Hd Hc))))
            as [field [Hf [<- _]]].
          now apply in_map.
        + intros field Hf Hd.
          apply (Simple (r_field field)), H2, Names. now exists field.
      - intros [H1 H2]. split.
        + intros x Hx. apply Simple in Hx. destruct Hx as [Hd Hc].
          specialize (H1 x Hd Hc). apply in_map_iff in H1.
          destruct H1 as [field [<- Hf]]. apply Names. now exists field.
        + intros x Hx. apply Names in Hx.
          destruct Hx as [field [Hf [<- Hd]]].
          apply Simple. split; [assumption|]. now apply H2. }
    assert (B : xor joined found = [] <->
                (forall name,
                   In name declared -> Js.contains "." name = true ->
                   In (Js.before "." name) (Js.keys (m_associations model))
                   \/ In (Js.before "." name) Js.inherited)).
    { rewrite xor_nil. split.
      - intros [H1 _] name Hd Hc.
        apply (picked_In _ (m_associations model) joined), H1, Joined.
        now exists name.
      - intros H. split.
        + intros x Hx. apply picked_In. split; [assumption|].
          apply Joined in Hx. destruct Hx as [name [Hd [Hc <-]]].
          now apply H.
        + intros x Hx. now apply picked_In in Hx. }
    split.
    + intros E. apply app_eq_nil in E. destruct E as [E1 E2].
      assert (X1 : xor simple names = [])
        by (destruct (xor simple names); [reflexivity | discriminate E1]).
      assert (X2 : xor joined found = [])
        by (destruct (xor joined found); [reflexivity | discriminate E2]).
      destruct (proj1 A X1) as [H1 H2]. pose proof (proj1 B X2) as H3.
      split; [exact H1|]. split; [exact H2 | exact H3].
    + intros [H1 [H2 H3]].
      rewrite (proj2 A (conj H1 H2)), (proj2 B H3). reflexivity.
  - intros event Hin. unfold selectSearchFields in Hin. cbv zeta in Hin.
    apply in_app_or in Hin.
    destruct Hin as [Hin | Hin]; destruct (xor _ _); try contradiction;
      destruct Hin as [<- | []]; eexists; reflexivity.
  - unfold selectSearchFields. cbv zeta. rewrite length_app.
    destruct (xor _ _); destruct (xor _ _); simpl; lia.
Qed.

End SearchFields.

Lemma search_warnings_exact_witness :
  selectSearchFields Sample.post Sample2.smart ["title"; "author.name"] = [].
Proof.
  apply (proj1 (search_warnings_exact Sample.post Sample2.smart
                  ["title"; "author.name"])).
  split; [|split].
  - intros name [<- | [<- | []]] H; [simpl; auto | discriminate H].
  - intros field [<- | [<- | [<- | []]]] H; try reflexivity;
      simpl in H; intuition discriminate.
  - intros name [<- | [<- | []]] H; [discriminate H | left; simpl; auto].
Defined.

(** A search field under a name every object inherits is found by
    [_.pick] and reported by no warning; one under [__proto__] is. *)
Example inherited_association_name :
  selectSearchFields Sample.article Sample2.misconfigured ["toString.x"] = []
  /\ selectSearchFields Sample.article Sample2.misconfigured
       ["constructor.name"] = []
  /\ selectSearchFields Sample.article Sample2.misconfigured ["owner.name"]
     = [Warn "Cannot find the associations [owner] while searching records in model Article."]
  /\ selectSearchFields Sample.article Sample2.misconfigured ["__proto__.x"]
     = [Warn "Cannot find the associations [__proto__] while searching records in model Article."].
Proof.
  repeat split.
Qed.

(** A declared search field the schema does not have is reported. *)
Example missing_search_field_warned :
  selectSearchFields Sample.article Sample2.misconfigured
    ["title"; "subtitle"]
  = [Warn "Cannot find the fields [subtitle] while searching records in model Article."].
Proof.
  reflexivity.
Qed.

Lemma fulfilled_after_both_queries_witness :
  exists lines scope c f fetched,
    fst (perform Sample.post Sample2.smart Sample2.full Sample.world)
    = lines ++ [Count scope c; FindAll scope f]
    /\ count Sample.world scope c = Ok 2%Z
    /\ findAll Sample.world scope f = Ok fetched
    /\ length [Sample.row1; Sample.row2] = length fetched.
Proof.
  apply (fulfilled_after_both_queries Sample.post Sample2.smart Sample2.full
           Sample.world 2%Z [Sample.row1; Sample.row2]).
  reflexivity.
Defined.

Lemma synchronous_throw_sources_witness :
  exists resolved,
    Sample2.native 0 Sample.published = Thenable (Ok resolved)
    /\ fst (performCalled Sample.article (Sample.segmented false)
              Sample.published Sample.world Sample2.native)
       = SegmentWhere 0 Sample.published
         :: fst (getAndCountRecords Sample.article (Sample.segmented false)
                   Sample.published Sample.world Js.Undefined resolved).
Proof.
  destruct (synchronous_throw_sources
              Sample.article (Sample.segmented false) Sample.published
              Sample.world Sample2.native (notAFunction spread) eq_refl)
    as [[G _] | [segmentScope [f [G Sources]]]].
  - discriminate G.
  - injection G as <- <-.
    destruct Sources
      as [[C _] | [[C _] | [[error [C _]] | [resolved [C [_ Log]]]]]];
      try discriminate C.
    exists resolved. now split.
Defined.

Lemma segment_function_failure_witness :
  (exists message,
     performCalled Sample.article (Sample.segmented false) Sample.published
                   Sample.world Sample2.nativeDenied
     = ([SegmentWhere 0 Sample.published], Threw (TypeError message)))
  /\ performCalled Sample.article (Sample.segmented false) Sample.published
                   Sample.world Sample2.denied
     = ([SegmentWhere 0 Sample.published],
        Rejected (Failure (Js.Str "denied"))).
Proof.
  assert (Hne : "published" <> EmptyString) by discriminate.
  split.
  - apply (proj1 (proj2 (proj2 (segment_function_failure
                    Sample.article (Sample.segmented false) Sample.published
                    Sample.world Sample2.nativeDenied
                    [ {| g_name := "published"; g_scope := Js.Undefined;
                         g_where := Js.Fun 0 |} ]
                    "published"
                    {| g_name := "published"; g_scope := Js.Undefined;
                       g_where := Js.Fun 0 |}
                    0 (Failure (Js.Str "denied"))
                    eq_refl eq_refl Hne eq_refl eq_refl)))).
    reflexivity.
  - apply (proj1 (segment_function_failure
                    Sample.article (Sample.segmented false) Sample.published
                    Sample.world Sample2.denied
                    [ {| g_name := "published"; g_scope := Js.Undefined;
                         g_where := Js.Fun 0 |} ]
                    "published"
                    {| g_name := "published"; g_scope := Js.Undefined;
                       g_where := Js.Fun 0 |}
                    0 (Failure (Js.Str "denied"))
                    eq_refl eq_refl Hne eq_refl eq_refl)).
    reflexivity.
Defined.

(** A segment function that returns a native promise: [perform] throws,
    and the two queries are issued all the same; one that returns no
    promise: [perform] throws and that is all. *)
Example native_promise :
  performCalled Sample.article (Sample.segmented false) Sample.published
                Sample.world Sample2.native
  = (fst (perform Sample.article (Sample.segmented false) Sample.published
            Sample.world),
     Threw (notAFunction spread))
  /\ performCalled Sample.article (Sample.segmented false) Sample.published
                   Sample.world Sample2.bare
     = ([SegmentWhere 0 Sample.published], Threw (notAFunction then_)).
Proof.
  split; reflexivity.
Qed.

Lemma no_segment_unscoped_witness :
  perform Sample.article Sample2.misconfigured Sample.published Sample.world
  = (fst (getAndCountRecords Sample.article Sample2.misconfigured
            Sample.published Sample.world Js.Undefined Js.Undefined),
     settle false Sample.world
       (snd (getAndCountRecords Sample.article Sample2.misconfigured
               Sample.published Sample.world Js.Undefined Js.Undefined))).
Proof.
  apply (proj1 (no_segment_unscoped Sample.article Sample2.misconfigured
                  Sample.published Sample.world (or_introl eq_refl))).
Defined.

Lemma segment_scope_applied_witness :
  scopeOf (nth 1 (fst (perform Sample.post Sample2.smart Sample2.full
                         Sample.world)) (Warn EmptyString))
  = Some (Some (Js.Str "recentScope")).
Proof.
  apply (segment_scope_applied Sample.post Sample2.smart Sample2.full
           Sample.world [Sample2.recent] "recent" Sample2.recent
           (nth 1 (fst (perform Sample.post Sample2.smart Sample2.full
                          Sample.world)) (Warn EmptyString))
           eq_refl eq_refl).
  - discriminate.
  - reflexivity.
  - vm_compute. auto.
  - reflexivity.
Defined.

Lemma segment_function_called_only_witness :
  Sample.published = Sample.published
  /\ (exists rest,
        fst (perform Sample.article (Sample.segmented false)
               Sample.published Sample.world)
        = SegmentWhere 0 Sample.published :: rest
        /\ forall g q, ~ In (SegmentWhere g q) rest)
  /\ exists segments name segment,
       r_segments (Sample.segmented false) = Some segments
       /\ p_segment Sample.published = Some name
       /\ find (fun s => String.eqb (g_name s) name) segments = Some segment
       /\ g_where segment = Js.Fun 0.
Proof.
  apply (segment_function_called_only Sample.article (Sample.segmented false)
           Sample.published Sample.world 0 Sample.published).
  simpl. auto.
Defined.

Lemma where_clause_parts_witness :
  exists parts,
    Js.Obj [("$and",
             Js.Arr [Js.Obj [("$or", Js.Arr [])];
                     Js.Obj [("$and", Js.Arr [Js.Obj [("age", Js.Str "18")]])];
                     Js.Obj [("recent", Js.Bool true)]])]
    = Js.Obj [("$and", Js.Arr parts)]
    /\ length parts = 3
    /\ (present (p_search Sample2.full) = true ->
        hd_error parts
        = Some (searchBuilder Sample.world
                  (fieldNamesRequested Sample.post Sample2.full)))
    /\ (Js.truthy (Js.Obj [("recent", Js.Bool true)]) = true ->
        last parts Js.Undefined = Js.Obj [("recent", Js.Bool true)]).
Proof.
  apply (where_clause_parts Sample.post Sample2.full Sample.world
           (Js.Obj [("recent", Js.Bool true)])).
  reflexivity.
Defined.

(** A request with a search term, a filter and a segment, under a schema
    with a hook that throws: the error is logged and both queries run under
    the segment's scope. *)
Example full_request :
  map isQuery
      (fst (perform Sample.post Sample2.smart Sample2.full Sample.world))
  = [false; true; true]
  /\ snd (perform Sample.post Sample2.smart Sample2.full Sample.world)
     = Fulfilled (2%Z, [Sample.row1; Sample.row2]).
Proof.
  split; reflexivity.
Qed.
